(** * The inpainting editor: pan, zoom and draw on a mask canvas

    A shallow embedding of [src/components/Editor.tsx], the one React
    component of the repository, and of the properties its specification
    states about it.

    Conventions of the embedding.

    - JavaScript numbers are modelled by exact rationals ([Q]): the
      arithmetic of the handlers ([+], [-], [*], [/], [Math.min],
      [Math.max]) is the field arithmetic, so rounding, infinities and NaN
      are outside the model.  Equalities between computed numbers are
      stated with [==] ([Qeq]).
    - A handler is a function from the component state to a [Result]: it
      either completes with the next state or throws, as JavaScript does
      when a property of [null] or [undefined] is read or [undefined] is
      called.  The state a handler reads is the state the previous handler
      left (one render between two events).
    - The DOM objects the component refers to (the container [div] and the
      [canvas]) live in the state; [containerRef], [canvasRef] and [ctx]
      are nullable references to them, so what is drawn through [ctx] is
      what [canvasRef.current.toDataURL()] exports.
    - The raster of the canvas is represented by the list of the operations
      that painted it since it was last blank; the empty list is the fully
      transparent bitmap. *)

From Stdlib Require Import QArith Qminmax Qfield Lqa Lia.
From Stdlib Require Import List String Bool ZArith NArith.
Import ListNotations.

Open Scope Q_scope.

(** ** JavaScript preliminaries *)

Module JS.

Definition number := Q.

Inductive Error := TypeError.

(** The outcome of running a piece of JavaScript. *)
Inductive Result (A : Type) : Type :=
  | Ok (a : A)
  | Throw (e : Error).
Arguments Ok {A} a.
Arguments Throw {A} e.

Definition ret {A} (a : A) : Result A := Ok a.

Definition bind {A B} (c : Result A) (k : A -> Result B) : Result B :=
  match c with
  | Ok a => k a
  | Throw e => Throw e
  end.

(** A nullable reference to an object that the state holds. *)
Inductive Ref := null | attached.

Definition truthy (r : Ref) : bool :=
  match r with null => false | attached => true end.

(** [r.member]: reading through a null reference throws. *)
Definition deref {A} (r : Ref) (obj : A) : Result A :=
  match r with
  | attached => Ok obj
  | null => Throw TypeError
  end.

(** An optional function-valued property. *)
Inductive Callback := undefined | defined.

Definition callable (f : Callback) : bool :=
  match f with undefined => false | defined => true end.

End JS.
Import JS.

Notation "x <- c ;; k" := (bind c (fun x => k))
  (at level 61, c at next level, right associativity).

Module Math.
Definition min (a b : number) : number := Qmin a b.
Definition max (a b : number) : number := Qmax a b.
End Math.

(** ** The DOM objects the component touches *)

Record Point := { x : number; y : number }.

Module DOMRect.
Record t := { left : number; top : number }.
End DOMRect.

(** The container [div]: where it sits in the viewport, and its client size. *)
Record HTMLDivElement := {
  boundingClientRect : DOMRect.t;
  clientWidth : N;
  clientHeight : N
}.

Definition getBoundingClientRect (el : HTMLDivElement) : DOMRect.t :=
  boundingClientRect el.

(** What has been painted on a canvas: a stroke of the current path, or a
    rectangle cleared out of it. *)
Inductive DrawOp :=
| Stroked (subpaths : list (list Point)) (lineWidth : number)
          (lineCap lineJoin strokeStyle : string)
| Cleared (rx ry rw rh : number).

(** The [canvas] element together with the state of its 2D context. *)
Record HTMLCanvasElement := {
  width : N;
  height : N;
  bitmap : list DrawOp;
  lineCap : string;
  lineJoin : string;
  strokeStyle : string;
  lineWidth : number;
  path : list (list Point)
}.

Module Canvas.

(** A canvas as the browser creates it, and the context state a change
    of its dimensions resets it to. *)
Definition blank (w h : N) : HTMLCanvasElement :=
  {| width := w; height := h; bitmap := [];
     lineCap := "butt"; lineJoin := "miter"; strokeStyle := "#000000";
     lineWidth := 1; path := [] |}.

(** [canvas.width = w] and [canvas.height = h]: the bitmap is replaced by
    a blank one of the new dimensions and the context is reset. *)
Definition set_width (w : N) (c : HTMLCanvasElement) : HTMLCanvasElement :=
  blank w (height c).
Definition set_height (h : N) (c : HTMLCanvasElement) : HTMLCanvasElement :=
  blank (width c) h.

Definition set_lineCap (v : string) (c : HTMLCanvasElement) :=
  {| width := width c; height := height c; bitmap := bitmap c;
     lineCap := v; lineJoin := lineJoin c; strokeStyle := strokeStyle c;
     lineWidth := lineWidth c; path := path c |}.

Definition set_lineJoin (v : string) (c : HTMLCanvasElement) :=
  {| width := width c; height := height c; bitmap := bitmap c;
     lineCap := lineCap c; lineJoin := v; strokeStyle := strokeStyle c;
     lineWidth := lineWidth c; path := path c |}.

Definition set_strokeStyle (v : string) (c : HTMLCanvasElement) :=
  {| width := width c; height := height c; bitmap := bitmap c;
     lineCap := lineCap c; lineJoin := lineJoin c; strokeStyle := v;
     lineWidth := lineWidth c; path := path c |}.

(** [ctx.lineWidth = w]: a value that is not positive is ignored. *)
Definition set_lineWidth (w : number) (c : HTMLCanvasElement) :=
  {| width := width c; height := height c; bitmap := bitmap c;
     lineCap := lineCap c; lineJoin := lineJoin c;
     strokeStyle := strokeStyle c;
     lineWidth := if Qlt_le_dec 0 w then w else lineWidth c;
     path := path c |}.

Definition set_path (p : list (list Point)) (c : HTMLCanvasElement) :=
  {| width := width c; height := height c; bitmap := bitmap c;
     lineCap := lineCap c; lineJoin := lineJoin c;
     strokeStyle := strokeStyle c; lineWidth := lineWidth c; path := p |}.

Definition set_bitmap (b : list DrawOp) (c : HTMLCanvasElement) :=
  {| width := width c; height := height c; bitmap := b;
     lineCap := lineCap c; lineJoin := lineJoin c;
     strokeStyle := strokeStyle c; lineWidth := lineWidth c;
     path := path c |}.

(** The current path is a list of subpaths, the latest last. *)
Definition beginPath (c : HTMLCanvasElement) := set_path [] c.

Definition moveTo (px py : number) (c : HTMLCanvasElement) :=
  set_path (path c ++ [[ {| x := px; y := py |} ]]) c.

Fixpoint extend_last (p : Point) (subs : list (list Point)) :=
  match subs with
  | [] => [[p]]
  | [sub] => [sub ++ [p]]
  | sub :: rest => sub :: extend_last p rest
  end.

(** [lineTo] on an empty path starts a subpath at the point. *)
Definition lineTo (px py : number) (c : HTMLCanvasElement) :=
  set_path (extend_last {| x := px; y := py |} (path c)) c.

(** [stroke()] paints the whole current path with the current settings. *)
Definition stroke (c : HTMLCanvasElement) :=
  set_bitmap
    (bitmap c ++
     [Stroked (path c) (lineWidth c) (lineCap c) (lineJoin c) (strokeStyle c)])
    c.

Definition covers (c : HTMLCanvasElement) (rx ry rw rh : number) : bool :=
  Qle_bool rx 0 && Qle_bool ry 0
  && Qle_bool (inject_Z (Z.of_N (width c))) (rx + rw)
  && Qle_bool (inject_Z (Z.of_N (height c))) (ry + rh).

(** [clearRect]: a rectangle that covers the canvas leaves it blank. *)
Definition clearRect (rx ry rw rh : number) (c : HTMLCanvasElement) :=
  set_bitmap
    (if covers c rx ry rw rh then [] else bitmap c ++ [Cleared rx ry rw rh])
    c.

End Canvas.

(** The string [toDataURL()] returns, represented by the raster it encodes. *)
Record MaskData := {
  data_width : N;
  data_height : N;
  data_bitmap : list DrawOp
}.

Definition toDataURL (c : HTMLCanvasElement) : MaskData :=
  {| data_width := width c; data_height := height c;
     data_bitmap := bitmap c |}.


(** ** Events *)

Record HTMLElement := { tagName : string }.

Module MouseEvent.
Record t := {
  button : Z;
  target : HTMLElement;
  clientX : number;
  clientY : number;
  movementX : number;
  movementY : number
}.
End MouseEvent.

Module WheelEvent.
Record t := {
  deltaY : number;
  clientX : number;
  clientY : number
}.
End WheelEvent.

(** The element a [load] event is fired at; only an image has natural
    dimensions. *)
Inductive LoadTarget :=
| ImgElement (naturalWidth naturalHeight : N)
| CanvasElement.

Definition naturalWidth (t : LoadTarget) : option N :=
  match t with ImgElement w _ => Some w | CanvasElement => None end.

Definition naturalHeight (t : LoadTarget) : option N :=
  match t with ImgElement _ h => Some h | CanvasElement => None end.

(** Assigning to the [unsigned long] attributes [canvas.width] and
    [canvas.height]: [undefined] converts to [0]. *)
Definition toUnsignedLong (v : option N) : N :=
  match v with Some n => n | None => 0%N end.

(** ** The component state *)

Inductive Tool := pan | draw.

Definition Tool_eqb (a b : Tool) : bool :=
  match a, b with
  | pan, pan | draw, draw => true
  | _, _ => false
  end.

(** The [onMaskChange] property, the [useState] cells, the two [useRef]
    cells, the two DOM objects, the [width] and [height] attributes last
    written on the canvas, and the trace of the calls of [onMaskChange]
    (the argument of each call, the latest last). *)
Record Editor := {
  onMaskChange : Callback;
  zoom : number;
  position : Point;
  isDragging : bool;
  isDrawing : bool;
  brushSize : number;
  activeTool : Tool;
  ctx : Ref;
  containerRef : Ref;
  canvasRef : Ref;
  container : HTMLDivElement;
  canvas : HTMLCanvasElement;
  canvasAttrs : option N * option N;
  maskChanges : list MaskData
}.

Definition setZoom (v : number) (s : Editor) : Editor :=
  {| onMaskChange := onMaskChange s; zoom := v; position := position s;
     isDragging := isDragging s; isDrawing := isDrawing s;
     brushSize := brushSize s; activeTool := activeTool s; ctx := ctx s;
     containerRef := containerRef s; canvasRef := canvasRef s;
     container := container s; canvas := canvas s;
     canvasAttrs := canvasAttrs s; maskChanges := maskChanges s |}.

Definition setPosition (v : Point) (s : Editor) : Editor :=
  {| onMaskChange := onMaskChange s; zoom := zoom s; position := v;
     isDragging := isDragging s; isDrawing := isDrawing s;
     brushSize := brushSize s; activeTool := activeTool s; ctx := ctx s;
     containerRef := containerRef s; canvasRef := canvasRef s;
     container := container s; canvas := canvas s;
     canvasAttrs := canvasAttrs s; maskChanges := maskChanges s |}.

Definition setIsDragging (v : bool) (s : Editor) : Editor :=
  {| onMaskChange := onMaskChange s; zoom := zoom s; position := position s;
     isDragging := v; isDrawing := isDrawing s;
     brushSize := brushSize s; activeTool := activeTool s; ctx := ctx s;
     containerRef := containerRef s; canvasRef := canvasRef s;
     container := container s; canvas := canvas s;
     canvasAttrs := canvasAttrs s; maskChanges := maskChanges s |}.

Definition setIsDrawing (v : bool) (s : Editor) : Editor :=
  {| onMaskChange := onMaskChange s; zoom := zoom s; position := position s;
     isDragging := isDragging s; isDrawing := v;
     brushSize := brushSize s; activeTool := activeTool s; ctx := ctx s;
     containerRef := containerRef s; canvasRef := canvasRef s;
     container := container s; canvas := canvas s;
     canvasAttrs := canvasAttrs s; maskChanges := maskChanges s |}.

Definition setBrushSize (v : number) (s : Editor) : Editor :=
  {| onMaskChange := onMaskChange s; zoom := zoom s; position := position s;
     isDragging := isDragging s; isDrawing := isDrawing s;
     brushSize := v; activeTool := activeTool s; ctx := ctx s;
     containerRef := containerRef s; canvasRef := canvasRef s;
     container := container s; canvas := canvas s;
     canvasAttrs := canvasAttrs s; maskChanges := maskChanges s |}.

Definition setActiveTool (v : Tool) (s : Editor) : Editor :=
  {| onMaskChange := onMaskChange s; zoom := zoom s; position := position s;
     isDragging := isDragging s; isDrawing := isDrawing s;
     brushSize := brushSize s; activeTool := v; ctx := ctx s;
     containerRef := containerRef s; canvasRef := canvasRef s;
     container := container s; canvas := canvas s;
     canvasAttrs := canvasAttrs s; maskChanges := maskChanges s |}.

Definition setCtx (v : Ref) (s : Editor) : Editor :=
  {| onMaskChange := onMaskChange s; zoom := zoom s; position := position s;
     isDragging := isDragging s; isDrawing := isDrawing s;
     brushSize := brushSize s; activeTool := activeTool s; ctx := v;
     containerRef := containerRef s; canvasRef := canvasRef s;
     container := container s; canvas := canvas s;
     canvasAttrs := canvasAttrs s; maskChanges := maskChanges s |}.

(** A mutation of the canvas object. *)
Definition withCanvas (f : HTMLCanvasElement -> HTMLCanvasElement)
    (s : Editor) : Editor :=
  {| onMaskChange := onMaskChange s; zoom := zoom s; position := position s;
     isDragging := isDragging s; isDrawing := isDrawing s;
     brushSize := brushSize s; activeTool := activeTool s; ctx := ctx s;
     containerRef := containerRef s; canvasRef := canvasRef s;
     container := container s; canvas := f (canvas s);
     canvasAttrs := canvasAttrs s; maskChanges := maskChanges s |}.

Definition setCanvasAttrs (v : option N * option N) (s : Editor) : Editor :=
  {| onMaskChange := onMaskChange s; zoom := zoom s; position := position s;
     isDragging := isDragging s; isDrawing := isDrawing s;
     brushSize := brushSize s; activeTool := activeTool s; ctx := ctx s;
     containerRef := containerRef s; canvasRef := canvasRef s;
     container := container s; canvas := canvas s;
     canvasAttrs := v; maskChanges := maskChanges s |}.

(** A method call or an assignment through [ctx]. *)
Definition viaCtx (f : HTMLCanvasElement -> HTMLCanvasElement)
    (s : Editor) : Result Editor :=
  _ <- deref (ctx s) (canvas s) ;;
  ret (withCanvas f s).

(** [onMaskChange(data)]: calling [undefined] throws. *)
Definition call_onMaskChange (data : MaskData) (s : Editor) : Result Editor :=
  match onMaskChange s with
  | defined =>
      ret {| onMaskChange := onMaskChange s; zoom := zoom s;
             position := position s; isDragging := isDragging s;
             isDrawing := isDrawing s; brushSize := brushSize s;
             activeTool := activeTool s; ctx := ctx s;
             containerRef := containerRef s; canvasRef := canvasRef s;
             container := container s; canvas := canvas s;
             canvasAttrs := canvasAttrs s;
             maskChanges := maskChanges s ++ [data] |}
  | undefined => Throw TypeError
  end.

(** ** The component: mounting and rendering *)

(** The effect that runs once after the first render; [context] is what
    [canvas.getContext("2d")] returns. *)
Definition mountEffect (context : Ref) (s : Editor) : Editor :=
  if truthy (canvasRef s) then
    if truthy context then
      setCtx context
        (withCanvas
           (fun c =>
              Canvas.set_strokeStyle "rgba(255, 0, 0, 0.8)"
                (Canvas.set_lineJoin "round" (Canvas.set_lineCap "round" c)))
           s)
    else s
  else s.

(** The state once the component is mounted: the initial values of the
    [useState] cells, both references attached, a canvas created without
    [width] and [height] attributes ([containerRef.current] was still null
    when the first render read it), and the effect run. *)
Definition mount (callback : Callback) (div : HTMLDivElement) (context : Ref)
    : Editor :=
  mountEffect context
    {| onMaskChange := callback;
       zoom := 1;
       position := {| x := 0; y := 0 |};
       isDragging := false;
       isDrawing := false;
       brushSize := 20;
       activeTool := pan;
       ctx := null;
       containerRef := attached;
       canvasRef := attached;
       container := div;
       canvas := Canvas.blank 300 150;
       canvasAttrs := (None, None);
       maskChanges := [] |}.

(** The [width] and [height] properties the render gives the canvas:
    [containerRef.current?.clientWidth] and [?.clientHeight]. *)
Definition canvasWidthProp (s : Editor) : option N :=
  match containerRef s with
  | attached => Some (clientWidth (container s))
  | null => None
  end.

Definition canvasHeightProp (s : Editor) : option N :=
  match containerRef s with
  | attached => Some (clientHeight (container s))
  | null => None
  end.

Definition sameAttr (a b : option N) : bool :=
  match a, b with
  | Some m, Some n => N.eqb m n
  | None, None => true
  | _, _ => false
  end.

(** The commit of a re-render: an attribute whose property changed is
    written (removed when the property is [undefined], which gives the
    canvas its default dimension), and writing it resets the canvas. *)
Definition rerender (s : Editor) : Editor :=
  let w := canvasWidthProp s in
  let h := canvasHeightProp s in
  let s1 :=
    if sameAttr w (fst (canvasAttrs s)) then s
    else withCanvas
           (Canvas.set_width (match w with Some n => n | None => 300%N end)) s in
  let s2 :=
    if sameAttr h (snd (canvasAttrs s)) then s1
    else withCanvas
           (Canvas.set_height (match h with Some n => n | None => 150%N end)) s1 in
  setCanvasAttrs (w, h) s2.

(** ** The handlers *)

Definition handleWheel (e : WheelEvent.t) (s : Editor) : Result Editor :=
  if negb (truthy (containerRef s)) then ret s else
  let delta := - WheelEvent.deltaY e / 1000 in
  let newZoom := Math.min (Math.max 0.1 (zoom s + delta)) 5 in
  el <- deref (containerRef s) (container s) ;;
  let rect := getBoundingClientRect el in
  let mouseX := WheelEvent.clientX e - DOMRect.left rect in
  let mouseY := WheelEvent.clientY e - DOMRect.top rect in
  ret (setZoom newZoom
         (setPosition
            {| x := mouseX - (mouseX - x (position s)) * (newZoom / zoom s);
               y := mouseY - (mouseY - y (position s)) * (newZoom / zoom s) |}
            s)).

Definition getCanvasCoordinates (clientX clientY : number) (s : Editor)
    : Result Point :=
  if negb (truthy (canvasRef s)) || negb (truthy (containerRef s))
  then ret {| x := 0; y := 0 |} else
  el <- deref (containerRef s) (container s) ;;
  let containerRect := getBoundingClientRect el in
  let containerX := clientX - DOMRect.left containerRect in
  let containerY := clientY - DOMRect.top containerRect in
  ret {| x := (containerX - x (position s)) / zoom s;
         y := (containerY - y (position s)) / zoom s |}.

(** The event comes from one of the controls.  ([e.preventDefault()], which
    both mouse handlers call on the events they act on, changes nothing of
    the state and is left out.) *)
Definition fromControl (e : MouseEvent.t) : bool :=
  String.eqb (tagName (MouseEvent.target e)) "BUTTON"
  || String.eqb (tagName (MouseEvent.target e)) "INPUT".

Definition handleMouseDown (e : MouseEvent.t) (s : Editor) : Result Editor :=
  if negb (Z.eqb (MouseEvent.button e) 0) || fromControl e then ret s else
  if Tool_eqb (activeTool s) pan then
    ret (setIsDragging true s)
  else if Tool_eqb (activeTool s) draw then
    if negb (truthy (ctx s)) then ret s else
    let s1 := setIsDrawing true s in
    p <- getCanvasCoordinates (MouseEvent.clientX e) (MouseEvent.clientY e) s ;;
    s2 <- viaCtx Canvas.beginPath s1 ;;
    viaCtx (Canvas.moveTo (x p) (y p)) s2
  else ret s.

Definition handleMouseMove (e : MouseEvent.t) (s : Editor) : Result Editor :=
  if fromControl e then ret s else
  if Tool_eqb (activeTool s) pan && isDragging s then
    let prev := position s in
    ret (setPosition
           {| x := x prev + MouseEvent.movementX e;
              y := y prev + MouseEvent.movementY e |}
           s)
  else if Tool_eqb (activeTool s) draw && isDrawing s && truthy (ctx s) then
    p <- getCanvasCoordinates (MouseEvent.clientX e) (MouseEvent.clientY e) s ;;
    s1 <- viaCtx (Canvas.lineTo (x p) (y p)) s ;;
    s2 <- viaCtx (Canvas.set_lineWidth (brushSize s / zoom s)) s1 ;;
    viaCtx Canvas.stroke s2
  else ret s.

Definition handleMouseUp (s : Editor) : Result Editor :=
  let s1 := setIsDrawing false (setIsDragging false s) in
  if truthy (canvasRef s) && callable (onMaskChange s) then
    c <- deref (canvasRef s) (canvas s) ;;
    call_onMaskChange (toDataURL c) s1
  else ret s1.

Definition resetView (s : Editor) : Result Editor :=
  let s1 := setPosition {| x := 0; y := 0 |} (setZoom 1 s) in
  if truthy (ctx s) && truthy (canvasRef s) then
    c <- deref (canvasRef s) (canvas s) ;;
    viaCtx
      (Canvas.clearRect 0 0 (inject_Z (Z.of_N (width c)))
         (inject_Z (Z.of_N (height c))))
      s1
  else ret s1.

(** The [onLoad] handler, which the render puts on the [canvas] element. *)
Definition canvasOnLoad (target : LoadTarget) (s : Editor) : Result Editor :=
  let img := target in
  if truthy (canvasRef s) then
    _ <- deref (canvasRef s) (canvas s) ;;
    ret (withCanvas
           (fun c =>
              Canvas.set_height (toUnsignedLong (naturalHeight img))
                (Canvas.set_width (toUnsignedLong (naturalWidth img)) c))
           s)
  else ret s.

(** The [onLoad] property of each element of the render: the [img] has
    none. *)
Definition onLoadProp (target : LoadTarget)
    : option (LoadTarget -> Editor -> Result Editor) :=
  match target with
  | ImgElement _ _ => None
  | CanvasElement => Some canvasOnLoad
  end.

(** ** Dispatch *)

(** What the browser and the user can do to the mounted component: the
    five events the container listens to, the clicks on the three buttons,
    a change of the brush slider, a [load] event fired at an element (it
    does not bubble, and the [img] and the [canvas] are siblings, so it runs
    the handler of its target only), and the commit of a re-render. *)
Inductive Event :=
| onWheel (e : WheelEvent.t)
| onMouseDown (e : MouseEvent.t)
| onMouseMove (e : MouseEvent.t)
| onMouseUp
| onMouseLeave
| clickPan
| clickDraw
| clickResetView
| changeBrushSize (value : number)
| onLoad (target : LoadTarget)
| render.

Definition dispatch (ev : Event) (s : Editor) : Result Editor :=
  match ev with
  | onWheel e => handleWheel e s
  | onMouseDown e => handleMouseDown e s
  | onMouseMove e => handleMouseMove e s
  | onMouseUp => handleMouseUp s
  | onMouseLeave => handleMouseUp s
  | clickPan => ret (setActiveTool pan s)
  | clickDraw => ret (setActiveTool draw s)
  | clickResetView => resetView s
  | changeBrushSize value => ret (setBrushSize value s)
  | onLoad target =>
      match onLoadProp target with
      | Some handler => handler target s
      | None => ret s
      end
  | render => ret (rerender s)
  end.

Fixpoint run (evs : list Event) (s : Editor) : Result Editor :=
  match evs with
  | [] => ret s
  | ev :: rest => s' <- dispatch ev s ;; run rest s'
  end.

(** ** The render transform *)

(** The [style] the render gives both the [img] and the [canvas]:
    [translate(position.x px, position.y px) scale(zoom)] with the origin
    of the transform at the corner of the box.  A point of the box is
    scaled about that corner, then translated. *)
Definition scale (k : number) (p : Point) : Point :=
  {| x := k * x p; y := k * y p |}.

Definition translate (tx ty : number) (p : Point) : Point :=
  {| x := x p + tx; y := y p + ty |}.

Definition renderTransform (s : Editor) (p : Point) : Point :=
  translate (x (position s)) (y (position s)) (scale (zoom s) p).

(** Where a point of the canvas box shows in the viewport: the box fills
    the container, whose corner is at the corner of its bounding rectangle. *)
Definition imageToScreen (p : Point) (s : Editor) : Point :=
  let rect := getBoundingClientRect (container s) in
  translate (DOMRect.left rect) (DOMRect.top rect) (renderTransform s p).

(** ** Reachable states *)

(** A range input only reports values between its [min] and its [max]. *)
Definition wellFormed (ev : Event) : Prop :=
  match ev with
  | changeBrushSize value => 5 <= value /\ value <= 100
  | _ => True
  end.

Inductive reachable : Editor -> Prop :=
| reachable_mount (callback : Callback) (div : HTMLDivElement) (context : Ref) :
    reachable (mount callback div context)
| reachable_dispatch (s s' : Editor) (ev : Event) :
    reachable s -> wellFormed ev -> dispatch ev s = Ok s' -> reachable s'.

(** ** What the specification calls clamp *)

Definition clamp (v lo hi : number) : number :=
  if Qlt_le_dec v lo then lo
  else if Qlt_le_dec hi v then hi
  else v.

(** The events of a pointer gesture. *)
Inductive PointerEvent :=
| pointerDown (e : MouseEvent.t)
| pointerMove (e : MouseEvent.t)
| pointerUp
| pointerLeave.

Definition ofPointer (ev : PointerEvent) : Event :=
  match ev with
  | pointerDown e => onMouseDown e
  | pointerMove e => onMouseMove e
  | pointerUp => onMouseUp
  | pointerLeave => onMouseLeave
  end.

Definition isRelease (ev : Event) : bool :=
  match ev with
  | onMouseUp | onMouseLeave => true
  | _ => false
  end.

(** The number of pointer-up and pointer-leave events of a trace. *)
Definition releases (evs : list Event) : nat :=
  List.length (filter isRelease evs).

(** The state a trace leaves. *)
Definition afterRun (evs : list Event) (s : Editor) : Editor :=
  match run evs s with
  | Ok s' => s'
  | Throw _ => s
  end.

(** ** Invariants *)

(** What holds of every state the mounted component can be in. *)
Record Inv (s : Editor) : Prop := {
  inv_zoom : 0.1 <= zoom s /\ zoom s <= 5;
  inv_brush : 5 <= brushSize s /\ brushSize s <= 100;
  inv_container : containerRef s = attached;
  inv_canvasRef : canvasRef s = attached;
  inv_drawing : isDrawing s = true -> ctx s = attached;
  inv_painted : bitmap (canvas s) <> [] -> ctx s = attached
}.

(** The dimensions of the canvas come from the layout alone: the default
    of a canvas without attributes, the client size of the container, or the
    zero an [undefined] converts to. *)
Definition sizeFromLayout (s : Editor) : Prop :=
  (width (canvas s) = 300%N \/ width (canvas s) = clientWidth (container s)
   \/ width (canvas s) = 0%N)
  /\ (height (canvas s) = 150%N
      \/ height (canvas s) = clientHeight (container s)
      \/ height (canvas s) = 0%N).

(** A gesture flag is only raised under its own tool. *)
Definition flagsFollowTool (s : Editor) : Prop :=
  (isDragging s = true -> activeTool s = pan)
  /\ (isDrawing s = true -> activeTool s = draw).

(** ** Sample data *)

Definition sampleDiv : HTMLDivElement :=
  {| boundingClientRect := {| DOMRect.left := 0; DOMRect.top := 0 |};
     clientWidth := 800; clientHeight := 600 |}.

Definition offsetDiv : HTMLDivElement :=
  {| boundingClientRect := {| DOMRect.left := 8; DOMRect.top := 16 |};
     clientWidth := 640; clientHeight := 480 |}.

Definition sampleWheel : WheelEvent.t :=
  {| WheelEvent.deltaY := -200; WheelEvent.clientX := 200;
     WheelEvent.clientY := 150 |}.

Definition mouseAt (tag : string) (cx cy mx my : number) : MouseEvent.t :=
  {| MouseEvent.button := 0; MouseEvent.target := {| tagName := tag |};
     MouseEvent.clientX := cx; MouseEvent.clientY := cy;
     MouseEvent.movementX := mx; MouseEvent.movementY := my |}.

(** The component mounted with a callback, after the re-render that
    [setCtx] schedules. *)
Definition mounted : Editor :=
  afterRun [render] (mount defined sampleDiv attached).

(** The pan tool with the button held down. *)
Definition panning : Editor :=
  afterRun [onMouseDown (mouseAt "CANVAS" 10 10 0 0)] mounted.

(** The draw tool with brush size 40 at zoom 2, the button held down at
    the image point (10, 10). *)
Definition drawing : Editor :=
  afterRun
    [clickDraw; changeBrushSize 40;
     onWheel {| WheelEvent.deltaY := -1000; WheelEvent.clientX := 0;
                WheelEvent.clientY := 0 |};
     onMouseDown (mouseAt "CANVAS" 20 20 0 0)]
    mounted.

(** A stroke painted and the gesture ended. *)
Definition painted : Editor :=
  afterRun [onMouseMove (mouseAt "CANVAS" 20 100 0 80); onMouseUp] drawing.

(** A zoomed and panned view in a container away from the viewport corner. *)
Definition zoomedView : Editor :=
  afterRun
    [render;
     onWheel {| WheelEvent.deltaY := -500; WheelEvent.clientX := 108;
                WheelEvent.clientY := 66 |};
     onMouseDown (mouseAt "CANVAS" 50 50 0 0);
     onMouseMove (mouseAt "CANVAS" 57 47 7 (-3))]
    (mount undefined offsetDiv attached).

(** The component before its elements are attached. *)
Definition unmounted : Editor :=
  {| onMaskChange := undefined; zoom := 1;
     position := {| x := 0; y := 0 |};
     isDragging := false; isDrawing := false; brushSize := 20;
     activeTool := pan; ctx := null; containerRef := null;
     canvasRef := null; container := sampleDiv;
     canvas := Canvas.blank 300 150; canvasAttrs := (None, None);
     maskChanges := [] |}.

(** Mounted without a callback, a stroke in progress. *)
Definition drawingUnobserved : Editor :=
  afterRun
    [render; clickDraw; onMouseDown (mouseAt "CANVAS" 20 20 0 0);
     onMouseMove (mouseAt "CANVAS" 20 100 0 80)]
    (mount undefined sampleDiv attached).

(** ** Observations for the further properties *)

(** The point [getCanvasCoordinates] gives for the position of a mouse
    event. *)
Definition coordsOf (s : Editor) (e : MouseEvent.t) : Point :=
  match getCanvasCoordinates (MouseEvent.clientX e) (MouseEvent.clientY e) s with
  | Ok p => p
  | Throw _ => {| x := 0; y := 0 |}
  end.

Fixpoint lastOf {A : Type} (l : list A) : option A :=
  match l with
  | [] => None
  | [a] => Some a
  | _ :: rest => lastOf rest
  end.

(** The point a path currently ends at. *)
Definition currentPoint (subs : list (list Point)) : option Point :=
  match lastOf subs with
  | Some sub => lastOf sub
  | None => None
  end.

Definition sumMovementX (es : list MouseEvent.t) : number :=
  fold_right (fun e acc => MouseEvent.movementX e + acc) 0 es.

Definition sumMovementY (es : list MouseEvent.t) : number :=
  fold_right (fun e acc => MouseEvent.movementY e + acc) 0 es.

(** A left press outside the controls. *)
Definition leftPress (e : MouseEvent.t) : bool :=
  Z.eqb (MouseEvent.button e) 0 && negb (fromControl e).

(** The events that act on the view only: everything but the draw button,
    the reset button, a [load] and a re-render. *)
Definition viewEvent (ev : Event) : bool :=
  match ev with
  | onWheel _ | onMouseDown _ | onMouseMove _ | onMouseUp | onMouseLeave
  | clickPan | changeBrushSize _ => true
  | _ => false
  end.

(** The events that cannot take paint away: everything but the reset
    button, a [load] and a re-render. *)
Definition keepsPaint (ev : Event) : bool :=
  match ev with
  | clickResetView | onLoad _ | render => false
  | _ => true
  end.

Definition isStroke (op : DrawOp) : bool :=
  match op with Stroked _ _ _ _ _ => true | Cleared _ _ _ _ => false end.

(** A stroke whose one subpath starts at [p]. *)
Definition strokeFrom (p : Point) (op : DrawOp) : Prop :=
  exists rest w cap join style, op = Stroked [p :: rest] w cap join style.

(** A stroke painted with the settings of a context in its default state. *)
Definition defaultStyled (op : DrawOp) : Prop :=
  exists subs w, op = Stroked subs w "butt" "miter" "#000000".

(** Without a context nothing is painted and no draw gesture starts. *)
Definition inert (s : Editor) : Prop :=
  ctx s = null /\ bitmap (canvas s) = [] /\ isDrawing s = false.

(** The context is in its default state and so was it for every stroke of
    the bitmap. *)
Definition defaultContext (c : HTMLCanvasElement) : Prop :=
  strokeStyle c = "#000000"%string /\ lineCap c = "butt"%string
  /\ lineJoin c = "miter"%string
  /\ Forall defaultStyled (bitmap c).

(** Once the size attributes are written the context is the default one. *)
Definition styleInv (s : Editor) : Prop :=
  fst (canvasAttrs s) <> None -> defaultContext (canvas s).

(** More sample states: the draw tool chosen, the zoom at its upper bound,
    and the component mounted without a callback. *)
Definition drawTool : Editor := afterRun [clickDraw] mounted.

Definition zoomedIn : Editor :=
  afterRun
    [onWheel {| WheelEvent.deltaY := -10000; WheelEvent.clientX := 200;
                WheelEvent.clientY := 150 |}]
    mounted.

Definition unobserved : Editor :=
  afterRun [render] (mount undefined sampleDiv attached).

(** A draw gesture up to its release, a pan drag, and a mixed trace. *)
Definition strokeTrace : list Event :=
  [clickDraw; onMouseDown (mouseAt "CANVAS" 20 20 0 0);
   onMouseMove (mouseAt "CANVAS" 20 100 0 80)].

Definition panMoves : list MouseEvent.t :=
  [mouseAt "CANVAS" 30 25 20 15; mouseAt "IMG" 25 30 (-5) 5].

Definition drawMoves : list MouseEvent.t :=
  [mouseAt "CANVAS" 20 100 0 80; mouseAt "CANVAS" 60 100 40 0].

Definition viewTrace : list Event :=
  [onWheel sampleWheel; onMouseDown (mouseAt "CANVAS" 10 10 0 0);
   onMouseMove (mouseAt "CANVAS" 30 25 20 15); onMouseUp;
   changeBrushSize 30].

(** A draw gesture with one segment painted, the button still down. *)
Definition midStroke : Editor :=
  afterRun [onMouseMove (mouseAt "CANVAS" 20 100 0 80)] drawing.

(** ** The application shell *)

(** The [App] component, which shows a file input until an image has been
    read and the editor from then on. *)
Module App.

Record File := { name : string }.

(** What the shell shows: the file input, or the editor with its
    properties. *)
Inductive View :=
| UploadPrompt
| EditorView (image : string) (onMaskChange : Callback).

(** Truthiness of a [string | null]: [null] and the empty string are
    falsy. *)
Definition truthy (v : option string) : bool :=
  match v with
  | Some str => negb (String.eqb str "")
  | None => false
  end.

(** The [image] cell of the shell, and the files handed to a [FileReader]
    whose [load] event is still to come. *)
Record State := {
  image : option string;
  reading : list File
}.

Definition init : State := {| image := None; reading := [] |}.

Definition setImage (v : option string) (a : State) : State :=
  {| image := v; reading := reading a |}.

Definition readAsDataURL (file : File) (a : State) : State :=
  {| image := image a; reading := reading a ++ [file] |}.

(** [handleImageUpload]; [files] is [e.target.files], which may be null. *)
Definition handleImageUpload (files : option (list File)) (a : State)
    : State :=
  let file := match files with
              | Some (first :: _) => Some first
              | _ => None
              end in
  match file with
  | Some f => readAsDataURL f a
  | None => a
  end.

(** [reader.onload]; [result] is [event.target?.result]. *)
Definition readerOnload (result : option string) (a : State) : State :=
  if truthy result then setImage result a else a.

Definition render (a : State) : View :=
  if negb (truthy (image a)) then UploadPrompt
  else match image a with
       | Some img => EditorView img undefined
       | None => UploadPrompt
       end.

(** The input changes, or the [k]-th reader in flight completes. *)
Inductive Event :=
| onChange (files : option (list File))
| onload (k : nat) (result : option string).

Fixpoint removeNth {A : Type} (k : nat) (l : list A) : list A :=
  match l, k with
  | [], _ => []
  | _ :: rest, O => rest
  | a :: rest, S k' => a :: removeNth k' rest
  end.

Definition dispatch (ev : Event) (a : State) : State :=
  match ev with
  | onChange files => handleImageUpload files a
  | onload k result =>
      match nth_error (reading a) k with
      | Some _ =>
          readerOnload result
            {| image := image a; reading := removeNth k (reading a) |}
      | None => a
      end
  end.

Definition run (evs : list Event) (a : State) : State :=
  fold_left (fun st ev => dispatch ev st) evs a.

(** A change of the input that carries no file. *)
Definition noFile (ev : Event) : bool :=
  match ev with
  | onChange None | onChange (Some []) => true
  | onChange (Some (_ :: _)) => false
  | onload _ _ => true
  end.

End App.

(** A file chosen and read. *)
Definition uploadTrace : list App.Event :=
  [App.onChange (Some [ {| App.name := "photo.png" |} ]);
   App.onload 0 (Some "data:image/png;base64,iVBORw0KGgo="%string)].

(** * Properties *)

(** ** The handlers never throw *)

Ltac ok_inv H := injection H as <-.

Lemma viaCtx_attached f s :
  ctx s = attached -> viaCtx f s = Ok (withCanvas f s).
Proof. intros H. unfold viaCtx. rewrite H. reflexivity. Qed.

Lemma getCanvasCoordinates_total cx cy s :
  exists p, getCanvasCoordinates cx cy s = Ok p.
Proof.
  unfold getCanvasCoordinates.
  destruct (canvasRef s), (containerRef s); simpl; eauto.
Qed.

Lemma getCanvasCoordinates_attached cx cy s :
  containerRef s = attached -> canvasRef s = attached ->
  getCanvasCoordinates cx cy s =
  Ok {| x := (cx - DOMRect.left (boundingClientRect (container s))
              - x (position s)) / zoom s;
        y := (cy - DOMRect.top (boundingClientRect (container s))
              - y (position s)) / zoom s |}.
Proof.
  intros Hc Hr. unfold getCanvasCoordinates. rewrite Hc, Hr. reflexivity.
Qed.

Lemma handleWheel_attached e s :
  containerRef s = attached ->
  handleWheel e s =
  Ok (let newZoom :=
        Math.min (Math.max 0.1 (zoom s + - WheelEvent.deltaY e / 1000)) 5 in
      let rect := boundingClientRect (container s) in
      let mouseX := WheelEvent.clientX e - DOMRect.left rect in
      let mouseY := WheelEvent.clientY e - DOMRect.top rect in
      setZoom newZoom
        (setPosition
           {| x := mouseX - (mouseX - x (position s)) * (newZoom / zoom s);
              y := mouseY - (mouseY - y (position s)) * (newZoom / zoom s) |}
           s)).
Proof. intros H. unfold handleWheel. rewrite H. reflexivity. Qed.

Lemma handleWheel_total e s : exists s', handleWheel e s = Ok s'.
Proof. unfold handleWheel. destruct (containerRef s); simpl; eauto. Qed.

Lemma handleMouseDown_draw e s :
  negb (Z.eqb (MouseEvent.button e) 0) || fromControl e = false ->
  activeTool s = draw -> ctx s = attached ->
  handleMouseDown e s =
  (p <- getCanvasCoordinates (MouseEvent.clientX e) (MouseEvent.clientY e) s ;;
   ret (withCanvas (Canvas.moveTo (x p) (y p))
          (withCanvas Canvas.beginPath (setIsDrawing true s)))).
Proof.
  intros He Ht Hx. unfold handleMouseDown. rewrite He, Ht, Hx.
  cbn [Tool_eqb truthy negb].
  destruct (getCanvasCoordinates _ _ s) as [p | err]; [|reflexivity].
  cbn [bind].
  rewrite viaCtx_attached by exact Hx. cbn [bind].
  rewrite viaCtx_attached by exact Hx. reflexivity.
Qed.

Lemma handleMouseMove_draw e s :
  fromControl e = false -> activeTool s = draw -> isDrawing s = true ->
  ctx s = attached ->
  handleMouseMove e s =
  (p <- getCanvasCoordinates (MouseEvent.clientX e) (MouseEvent.clientY e) s ;;
   ret (withCanvas Canvas.stroke
          (withCanvas (Canvas.set_lineWidth (brushSize s / zoom s))
             (withCanvas (Canvas.lineTo (x p) (y p)) s)))).
Proof.
  intros Hf Ht Hd Hx. unfold handleMouseMove. rewrite Hf, Ht, Hd, Hx.
  cbn [Tool_eqb andb truthy].
  destruct (getCanvasCoordinates _ _ s) as [p | err]; [|reflexivity].
  cbn [bind].
  rewrite viaCtx_attached by exact Hx. cbn [bind].
  rewrite viaCtx_attached by exact Hx. cbn [bind].
  rewrite viaCtx_attached by exact Hx. reflexivity.
Qed.

Lemma handleMouseDown_total e s : exists s', handleMouseDown e s = Ok s'.
Proof.
  destruct (negb (Z.eqb (MouseEvent.button e) 0) || fromControl e) eqn:He.
  - unfold handleMouseDown. rewrite He. eauto.
  - destruct (activeTool s) eqn:Ht.
    + unfold handleMouseDown. rewrite He, Ht. simpl. eauto.
    + destruct (ctx s) eqn:Hx.
      * unfold handleMouseDown. rewrite He, Ht, Hx. simpl. eauto.
      * rewrite (handleMouseDown_draw e s He Ht Hx).
        destruct (getCanvasCoordinates_total (MouseEvent.clientX e)
                    (MouseEvent.clientY e) s) as [p ->].
        simpl. eauto.
Qed.

Lemma handleMouseMove_total e s : exists s', handleMouseMove e s = Ok s'.
Proof.
  unfold handleMouseMove.
  destruct (fromControl e); [simpl; eauto|].
  destruct (Tool_eqb (activeTool s) pan && isDragging s); [simpl; eauto|].
  destruct (Tool_eqb (activeTool s) draw && isDrawing s); simpl; [|eauto].
  destruct (ctx s) eqn:Hx; simpl; [eauto|].
  destruct (getCanvasCoordinates_total (MouseEvent.clientX e)
              (MouseEvent.clientY e) s) as [p ->].
  cbn [bind].
  rewrite viaCtx_attached by exact Hx. cbn [bind].
  rewrite viaCtx_attached by exact Hx. cbn [bind].
  rewrite viaCtx_attached by exact Hx. eauto.
Qed.

Lemma handleMouseUp_total s : exists s', handleMouseUp s = Ok s'.
Proof.
  unfold handleMouseUp, call_onMaskChange. simpl.
  destruct (canvasRef s), (onMaskChange s); simpl; eauto.
Qed.

Lemma resetView_total s : exists s', resetView s = Ok s'.
Proof.
  unfold resetView, viaCtx. simpl.
  destruct (ctx s), (canvasRef s); simpl; eauto.
Qed.

Lemma canvasOnLoad_total target s : exists s', canvasOnLoad target s = Ok s'.
Proof. unfold canvasOnLoad. destruct (canvasRef s); simpl; eauto. Qed.

Create HintDb total.
#[local] Hint Resolve handleWheel_total handleMouseDown_total
  handleMouseMove_total handleMouseUp_total resetView_total
  canvasOnLoad_total : total.

Lemma dispatch_total ev s : exists s', dispatch ev s = Ok s'.
Proof.
  destruct ev as [e | e | e | | | | | | value | target | ]; simpl;
    eauto with total.
  destruct target; simpl; eauto with total.
Qed.

Lemma run_total evs : forall s, exists s', run evs s = Ok s'.
Proof.
  induction evs as [| ev evs IH]; intros s; cbn [run].
  - eauto.
  - destruct (dispatch_total ev s) as [s1 ->]. cbn [bind]. apply IH.
Qed.

Lemma run_afterRun evs s : run evs s = Ok (afterRun evs s).
Proof.
  unfold afterRun. destruct (run_total evs s) as [s' ->]. reflexivity.
Qed.

Lemma reachable_run evs : forall s,
  reachable s -> Forall wellFormed evs -> reachable (afterRun evs s).
Proof.
  induction evs as [| ev evs IH]; intros s Hs Hwf.
  - exact Hs.
  - inversion Hwf as [| ev' evs' Hev Hevs]; subst.
    destruct (dispatch_total ev s) as [s1 Hs1].
    assert (Heq : afterRun (ev :: evs) s = afterRun evs s1).
    { destruct (run_total evs s1) as [s2 Hs2].
      unfold afterRun. cbn [run]. rewrite Hs1. cbn [bind]. rewrite Hs2.
      reflexivity. }
    rewrite Heq. apply IH; [|exact Hevs].
    eapply reachable_dispatch; eassumption.
Qed.

(** ** The invariant of the reachable states *)

Ltac inv_done :=
  constructor; simpl; auto; try lra;
  intros; repeat match goal with H : ctx _ = _ |- _ => rewrite H end; auto.

Lemma newZoom_range (v : number) :
  0.1 <= Math.min (Math.max 0.1 v) 5 /\ Math.min (Math.max 0.1 v) 5 <= 5.
Proof.
  unfold Math.min, Math.max. split.
  - apply Q.min_glb; [apply Q.le_max_l | lra].
  - apply Q.le_min_r.
Qed.

Lemma newZoom_clamp (v : number) :
  Math.min (Math.max 0.1 v) 5 == clamp v 0.1 5.
Proof.
  unfold Math.min, Math.max, clamp.
  destruct (Qlt_le_dec v 0.1) as [Hlo | Hlo].
  - rewrite Q.max_l by lra. rewrite Q.min_l by lra. reflexivity.
  - rewrite Q.max_r by exact Hlo.
    destruct (Qlt_le_dec 5 v) as [Hhi | Hhi].
    + rewrite Q.min_r by lra. reflexivity.
    + rewrite Q.min_l by exact Hhi. reflexivity.
Qed.

Lemma mount_Inv callback div context : Inv (mount callback div context).
Proof.
  unfold mount, mountEffect. simpl.
  destruct context; simpl; constructor; simpl; try lra; try reflexivity;
    try discriminate; try (intros H; now elim H).
Qed.

Lemma handleWheel_Inv e s s' : Inv s -> handleWheel e s = Ok s' -> Inv s'.
Proof.
  intros [Hz Hb Hc Hr Hd Hp]. rewrite (handleWheel_attached e s Hc).
  intros H. ok_inv H. constructor; simpl; auto using newZoom_range.
Qed.

Lemma handleMouseDown_Inv e s s' :
  Inv s -> handleMouseDown e s = Ok s' -> Inv s'.
Proof.
  intros [Hz Hb Hc Hr Hd Hp].
  destruct (negb (Z.eqb (MouseEvent.button e) 0) || fromControl e) eqn:He.
  - unfold handleMouseDown. rewrite He. intros H; ok_inv H. inv_done.
  - destruct (activeTool s) eqn:Ht.
    + unfold handleMouseDown. rewrite He, Ht. simpl.
      intros H; ok_inv H. inv_done.
    + destruct (ctx s) eqn:Hx.
      * unfold handleMouseDown. rewrite He, Ht, Hx. simpl.
        intros H; ok_inv H. inv_done.
      * rewrite (handleMouseDown_draw e s He Ht Hx).
        rewrite (getCanvasCoordinates_attached _ _ s Hc Hr). cbn [bind ret].
        intros H; ok_inv H. inv_done.
Qed.

Lemma handleMouseMove_Inv e s s' :
  Inv s -> handleMouseMove e s = Ok s' -> Inv s'.
Proof.
  intros [Hz Hb Hc Hr Hd Hp]. unfold handleMouseMove.
  destruct (fromControl e); [intros H; ok_inv H; inv_done|].
  destruct (Tool_eqb (activeTool s) pan && isDragging s);
    [intros H; ok_inv H; inv_done|].
  destruct (Tool_eqb (activeTool s) draw && isDrawing s); simpl;
    [|intros H; ok_inv H; inv_done].
  destruct (ctx s) eqn:Hx; simpl; [intros H; ok_inv H; inv_done|].
  rewrite (getCanvasCoordinates_attached _ _ s Hc Hr). cbn [bind].
  rewrite viaCtx_attached by exact Hx. cbn [bind].
  rewrite viaCtx_attached by exact Hx. cbn [bind].
  rewrite viaCtx_attached by exact Hx.
  intros H; ok_inv H. inv_done.
Qed.

Lemma handleMouseUp_Inv s s' : Inv s -> handleMouseUp s = Ok s' -> Inv s'.
Proof.
  intros [Hz Hb Hc Hr Hd Hp]. unfold handleMouseUp, call_onMaskChange. simpl.
  rewrite Hr. destruct (onMaskChange s); simpl; intros H; ok_inv H;
    constructor; simpl; auto; discriminate.
Qed.

Lemma resetView_Inv s s' : Inv s -> resetView s = Ok s' -> Inv s'.
Proof.
  intros [Hz Hb Hc Hr Hd Hp]. unfold resetView, viaCtx. simpl.
  rewrite Hr. destruct (ctx s) eqn:Hx; simpl; intros H; ok_inv H; inv_done.
Qed.

Lemma rerender_Inv s : Inv s -> Inv (rerender s).
Proof.
  intros [Hz Hb Hc Hr Hd Hp]. unfold rerender.
  destruct (sameAttr (canvasWidthProp s) (fst (canvasAttrs s)));
  destruct (sameAttr (canvasHeightProp s) (snd (canvasAttrs s)));
    constructor; simpl; auto; intros H; now elim H.
Qed.

Lemma canvasOnLoad_Inv target s s' :
  Inv s -> canvasOnLoad target s = Ok s' -> Inv s'.
Proof.
  intros [Hz Hb Hc Hr Hd Hp]. unfold canvasOnLoad. rewrite Hr. simpl.
  intros H; ok_inv H. constructor; simpl; auto.
Qed.

Lemma dispatch_Inv ev s s' :
  Inv s -> wellFormed ev -> dispatch ev s = Ok s' -> Inv s'.
Proof.
  intros HI Hwf.
  destruct ev as [e | e | e | | | | | | value | target | ]; simpl.
  - apply handleWheel_Inv, HI.
  - apply handleMouseDown_Inv, HI.
  - apply handleMouseMove_Inv, HI.
  - apply handleMouseUp_Inv, HI.
  - apply handleMouseUp_Inv, HI.
  - intros H; ok_inv H. destruct HI. inv_done.
  - intros H; ok_inv H. destruct HI. inv_done.
  - apply resetView_Inv, HI.
  - intros H; ok_inv H. simpl in Hwf. destruct HI. inv_done.
  - destruct target; simpl.
    + intros H; ok_inv H. exact HI.
    + apply canvasOnLoad_Inv, HI.
  - intros H; ok_inv H. apply rerender_Inv, HI.
Qed.

Lemma reachable_Inv s : reachable s -> Inv s.
Proof.
  induction 1 as [callback div context | s s' ev _ IH Hwf Hd].
  - apply mount_Inv.
  - eapply dispatch_Inv; eassumption.
Qed.

(** The sample states are reachable. *)
Lemma reachable_mounted : reachable mounted.
Proof.
  apply reachable_run; [apply reachable_mount|].
  repeat constructor.
Qed.

Lemma reachable_panning : reachable panning.
Proof.
  apply reachable_run; [apply reachable_mounted|].
  repeat constructor.
Qed.

Lemma reachable_drawing : reachable drawing.
Proof.
  apply reachable_run; [apply reachable_mounted|].
  repeat (constructor; try exact I); simpl; lra.
Qed.

Lemma reachable_painted : reachable painted.
Proof.
  apply reachable_run; [apply reachable_drawing|].
  repeat constructor.
Qed.

(** ** Scenarios of the specification *)

(** From zoom 1 and offset (0, 0), a wheel event with [deltaY = -200] at
    the cursor (200, 150) gives zoom 1.2, and the cursor still covers the
    image point (200, 150). *)
Example scenario_wheel :
  exists s' p,
    handleWheel sampleWheel mounted = Ok s' /\
    zoom s' == 1.2 /\
    getCanvasCoordinates 200 150 s' = Ok p /\
    x p == 200 /\ y p == 150.
Proof.
  do 2 eexists. split; [reflexivity|]. split; [reflexivity|].
  split; [reflexivity|]. split; reflexivity.
Qed.

(** With brush size 40 at zoom 2, the stroke from the image point (10, 10)
    to (10, 50) is painted with line width 20. *)
Example scenario_stroke :
  exists s' p0 p1 w cap join style,
    handleMouseMove (mouseAt "CANVAS" 20 100 0 80) drawing = Ok s' /\
    bitmap (canvas s') = [Stroked [[p0; p1]] w cap join style] /\
    (x p0 == 10 /\ y p0 == 10) /\ (x p1 == 10 /\ y p1 == 50) /\
    w == 20.
Proof.
  do 7 eexists. split; [reflexivity|]. split; [vm_compute; reflexivity|].
  repeat split; reflexivity.
Qed.

(** ** C1: when [onMaskChange] is called *)

Lemma handleMouseUp_calls s :
  canvasRef s = attached -> onMaskChange s = defined ->
  exists s', handleMouseUp s = Ok s' /\
    maskChanges s' = maskChanges s ++ [toDataURL (canvas s)].
Proof.
  intros Hr Hc. unfold handleMouseUp, call_onMaskChange. cbn.
  rewrite Hr, Hc. cbn. eexists. split; reflexivity.
Qed.

(** Outside [handleMouseUp] nothing calls [onMaskChange], and nothing at all
    changes the property or the reference to the canvas. *)
Lemma dispatch_frame ev s s' :
  dispatch ev s = Ok s' ->
  canvasRef s' = canvasRef s /\ onMaskChange s' = onMaskChange s /\
  (isRelease ev = false -> maskChanges s' = maskChanges s).
Proof.
  destruct ev as [e | e | e | | | | | | value | target | ];
    cbn [dispatch isRelease].
  - unfold handleWheel. destruct (containerRef s); cbn;
      intros H; ok_inv H; auto.
  - destruct (negb (Z.eqb (MouseEvent.button e) 0) || fromControl e) eqn:He.
    + unfold handleMouseDown. rewrite He. intros H; ok_inv H; auto.
    + destruct (activeTool s) eqn:Ht.
      * unfold handleMouseDown. rewrite He, Ht. cbn.
        intros H; ok_inv H; auto.
      * destruct (ctx s) eqn:Hx.
        -- unfold handleMouseDown. rewrite He, Ht, Hx. cbn.
           intros H; ok_inv H; auto.
        -- rewrite (handleMouseDown_draw e s He Ht Hx).
           destruct (getCanvasCoordinates_total (MouseEvent.clientX e)
                       (MouseEvent.clientY e) s) as [p ->].
           cbn [bind ret]. intros H; ok_inv H; auto.
  - unfold handleMouseMove.
    destruct (fromControl e); [intros H; ok_inv H; auto|].
    destruct (Tool_eqb (activeTool s) pan && isDragging s);
      [intros H; ok_inv H; auto|].
    destruct (Tool_eqb (activeTool s) draw && isDrawing s); cbn [andb];
      [|intros H; ok_inv H; auto].
    destruct (ctx s) eqn:Hx; cbn [truthy];
      [intros H; ok_inv H; auto|].
    destruct (getCanvasCoordinates_total (MouseEvent.clientX e)
                (MouseEvent.clientY e) s) as [p ->].
    cbn [bind]. rewrite viaCtx_attached by exact Hx. cbn [bind].
    rewrite viaCtx_attached by exact Hx. cbn [bind].
    rewrite viaCtx_attached by exact Hx.
    intros H; ok_inv H; auto.
  - unfold handleMouseUp, call_onMaskChange. cbn.
    destruct (canvasRef s) eqn:Hr, (onMaskChange s) eqn:Hc; cbn; intros H;
      ok_inv H; cbn; repeat split; auto; intros Hf; discriminate Hf.
  - unfold handleMouseUp, call_onMaskChange. cbn.
    destruct (canvasRef s) eqn:Hr, (onMaskChange s) eqn:Hc; cbn; intros H;
      ok_inv H; cbn; repeat split; auto; intros Hf; discriminate Hf.
  - intros H; ok_inv H; auto.
  - intros H; ok_inv H; auto.
  - unfold resetView, viaCtx. cbn.
    destruct (ctx s), (canvasRef s) eqn:Hr; cbn; intros H; ok_inv H;
      cbn; auto.
  - intros H; ok_inv H; auto.
  - destruct target; cbn [onLoadProp].
    + intros H; ok_inv H; auto.
    + unfold canvasOnLoad. destruct (canvasRef s) eqn:Hr; cbn;
        intros H; ok_inv H; auto.
  - intros H; ok_inv H. unfold rerender.
    destruct (sameAttr (canvasWidthProp s) (fst (canvasAttrs s)));
    destruct (sameAttr (canvasHeightProp s) (snd (canvasAttrs s))); auto.
Qed.

(** C1, as the code has it.  With a canvas mounted and a callback
    registered, every trace of events calls [onMaskChange] once for each
    pointer-up and each pointer-leave it contains, whatever the active tool
    and whether or not a gesture was in progress, and at no other event.  So
    a draw gesture (one press, moves, one release) makes exactly one call,
    the reset action makes none, and a pan gesture makes one call as well. *)
Theorem onMaskChange_once_per_release (evs : list Event) (s : Editor) :
  canvasRef s = attached -> onMaskChange s = defined ->
  exists s', run evs s = Ok s' /\
    List.length (maskChanges s')
    = (List.length (maskChanges s) + releases evs)%nat.
Proof.
  revert s. induction evs as [| ev evs IH]; intros s Hr Hc; cbn [run].
  - exists s. split; [reflexivity|]. unfold releases. cbn. lia.
  - destruct (dispatch_total ev s) as [s1 Hs1]. rewrite Hs1. cbn [bind].
    destruct (dispatch_frame ev s s1 Hs1) as (Hr1 & Hc1 & Hm1).
    destruct (IH s1) as (s' & Hrun & Hlen); [congruence | congruence |].
    exists s'. split; [exact Hrun|]. rewrite Hlen.
    unfold releases. cbn [filter].
    destruct (isRelease ev) eqn:Hrel.
    + assert (Hup : handleMouseUp s = Ok s1)
        by (destruct ev; try discriminate Hrel; exact Hs1).
      destruct (handleMouseUp_calls s Hr Hc) as (s2 & Hs2 & Hm2).
      rewrite Hs2 in Hup. ok_inv Hup.
      rewrite Hm2, length_app. cbn. lia.
    + rewrite (Hm1 eq_refl). reflexivity.
Qed.

(** A draw gesture followed by a reset: one call. *)
Lemma onMaskChange_once_per_release_witness :
  exists s',
    run [clickDraw;
         onMouseDown (mouseAt "CANVAS" 10 10 0 0);
         onMouseMove (mouseAt "CANVAS" 10 50 0 40);
         onMouseUp;
         clickResetView] mounted = Ok s' /\
    List.length (maskChanges s') = (0 + 1)%nat.
Proof.
  apply (onMaskChange_once_per_release
           [clickDraw;
            onMouseDown (mouseAt "CANVAS" 10 10 0 0);
            onMouseMove (mouseAt "CANVAS" 10 50 0 40);
            onMouseUp;
            clickResetView] mounted); reflexivity.
Defined.

(** C1, as the specification states it, fails for pan gestures: under the
    pan tool, a press, a move and a release shift the image, paint nothing,
    and call [onMaskChange] once. *)
Lemma pan_gesture_calls_onMaskChange :
  exists s',
    run [onMouseDown (mouseAt "CANVAS" 10 10 0 0);
         onMouseMove (mouseAt "CANVAS" 30 25 20 15);
         onMouseUp] mounted = Ok s' /\
    activeTool mounted = pan /\
    isDragging panning = true /\
    (x (position s') == 20 /\ y (position s') == 15) /\
    bitmap (canvas s') = [] /\
    List.length (maskChanges mounted) = 0%nat /\
    List.length (maskChanges s') = 1%nat.
Proof.
  eexists. split; [reflexivity|]. repeat split; reflexivity.
Qed.

(** ** C2: the size of the mask canvas *)

(** The [load] event of the image runs no handler: the [img] of the render
    has no [onLoad], and the handler that copies the natural size sits on
    the [canvas]. *)
Lemma imgLoad_runs_no_handler (w h : N) (s : Editor) :
  dispatch (onLoad (ImgElement w h)) s = Ok s.
Proof. reflexivity. Qed.

Lemma rerender_size s : sizeFromLayout s -> sizeFromLayout (rerender s).
Proof.
  intros [Hw Hh]. unfold rerender, canvasWidthProp, canvasHeightProp.
  destruct (containerRef s);
    destruct (sameAttr _ (fst (canvasAttrs s)));
    destruct (sameAttr _ (snd (canvasAttrs s)));
    split; cbn; auto.
Qed.

Lemma dispatch_size ev s s' :
  dispatch ev s = Ok s' -> sizeFromLayout s -> sizeFromLayout s'.
Proof.
  destruct ev as [e | e | e | | | | | | value | target | ]; cbn [dispatch].
  - unfold handleWheel. destruct (containerRef s); cbn;
      intros H; ok_inv H; auto.
  - destruct (negb (Z.eqb (MouseEvent.button e) 0) || fromControl e) eqn:He.
    + unfold handleMouseDown. rewrite He. intros H; ok_inv H; auto.
    + destruct (activeTool s) eqn:Ht.
      * unfold handleMouseDown. rewrite He, Ht. cbn.
        intros H; ok_inv H; auto.
      * destruct (ctx s) eqn:Hx.
        -- unfold handleMouseDown. rewrite He, Ht, Hx. cbn.
           intros H; ok_inv H; auto.
        -- rewrite (handleMouseDown_draw e s He Ht Hx).
           destruct (getCanvasCoordinates_total (MouseEvent.clientX e)
                       (MouseEvent.clientY e) s) as [p ->].
           cbn [bind ret]. intros H; ok_inv H; auto.
  - unfold handleMouseMove.
    destruct (fromControl e); [intros H; ok_inv H; auto|].
    destruct (Tool_eqb (activeTool s) pan && isDragging s);
      [intros H; ok_inv H; auto|].
    destruct (Tool_eqb (activeTool s) draw && isDrawing s); cbn [andb];
      [|intros H; ok_inv H; auto].
    destruct (ctx s) eqn:Hx; cbn [truthy];
      [intros H; ok_inv H; auto|].
    destruct (getCanvasCoordinates_total (MouseEvent.clientX e)
                (MouseEvent.clientY e) s) as [p ->].
    cbn [bind]. rewrite viaCtx_attached by exact Hx. cbn [bind].
    rewrite viaCtx_attached by exact Hx. cbn [bind].
    rewrite viaCtx_attached by exact Hx.
    intros H; ok_inv H; auto.
  - unfold handleMouseUp, call_onMaskChange. cbn.
    destruct (canvasRef s), (onMaskChange s); cbn; intros H; ok_inv H; auto.
  - unfold handleMouseUp, call_onMaskChange. cbn.
    destruct (canvasRef s), (onMaskChange s); cbn; intros H; ok_inv H; auto.
  - intros H; ok_inv H; auto.
  - intros H; ok_inv H; auto.
  - unfold resetView, viaCtx. cbn.
    destruct (ctx s), (canvasRef s); cbn; intros H; ok_inv H; auto.
  - intros H; ok_inv H; auto.
  - destruct target; cbn [onLoadProp].
    + intros H; ok_inv H; auto.
    + unfold canvasOnLoad. destruct (canvasRef s); cbn;
        intros H; ok_inv H; auto.
      intros _. split; cbn; auto.
  - intros H; ok_inv H. apply rerender_size.
Qed.

(** No event gives the canvas a size that depends on the image: in every
    reachable state its dimensions come from the layout. *)
Lemma reachable_size s : reachable s -> sizeFromLayout s.
Proof.
  induction 1 as [callback div context | s s' ev _ IH _ Hd].
  - unfold mount, mountEffect. destruct context; split; cbn; auto.
  - eapply dispatch_size; eassumption.
Qed.

(** C2 fails on the code.  Whatever the natural size of the image, once the
    component is mounted, re-rendered and the image loaded, the canvas has
    the client size of the container; for an image of 400 by 300 pixels in a
    container of 800 by 600 the canvas is 800 by 600. *)
Theorem canvas_sized_by_container_not_image :
  (forall (callback : Callback) (div : HTMLDivElement) (context : Ref)
          (w h : N),
      exists s',
        run [render; onLoad (ImgElement w h)] (mount callback div context)
          = Ok s' /\
        width (canvas s') = clientWidth div /\
        height (canvas s') = clientHeight div)
  /\ (exists s',
        run [render; onLoad (ImgElement 400 300)]
          (mount undefined sampleDiv attached) = Ok s' /\
        width (canvas s') = 800%N /\ height (canvas s') = 600%N).
Proof.
  assert (Hall : forall callback div context w h,
      exists s',
        run [render; onLoad (ImgElement w h)] (mount callback div context)
          = Ok s' /\
        width (canvas s') = clientWidth div /\
        height (canvas s') = clientHeight div).
  { intros callback div context w h. cbn [run dispatch bind ret onLoadProp].
    eexists. split; [reflexivity|].
    unfold rerender, mount, mountEffect. destruct context; split; reflexivity. }
  split; [exact Hall|].
  apply (Hall undefined sampleDiv attached 400%N 300%N).
Qed.

(** ** C3: the wheel zooms about the cursor *)

(** C3.  For every wheel event, every state with both elements mounted and
    a zoom in [0.1, 5], the image point under the cursor is the same before
    and after the wheel handler, and the new offset is
    [cursor - (cursor - offset) * (newZoom / zoom)] on each axis, where
    [cursor] is the position of the cursor relative to the container. *)
Theorem wheel_keeps_point_under_cursor (e : WheelEvent.t) (s : Editor) :
  containerRef s = attached -> canvasRef s = attached ->
  0.1 <= zoom s -> zoom s <= 5 ->
  exists s' before after,
    getCanvasCoordinates (WheelEvent.clientX e) (WheelEvent.clientY e) s
      = Ok before /\
    handleWheel e s = Ok s' /\
    getCanvasCoordinates (WheelEvent.clientX e) (WheelEvent.clientY e) s'
      = Ok after /\
    x after == x before /\ y after == y before /\
    let rect := getBoundingClientRect (container s) in
    let cursorX := WheelEvent.clientX e - DOMRect.left rect in
    let cursorY := WheelEvent.clientY e - DOMRect.top rect in
    x (position s')
      == cursorX - (cursorX - x (position s)) * (zoom s' / zoom s) /\
    y (position s')
      == cursorY - (cursorY - y (position s)) * (zoom s' / zoom s).
Proof.
  intros Hc Hr Hlo Hhi.
  rewrite (handleWheel_attached e s Hc).
  rewrite (getCanvasCoordinates_attached _ _ s Hc Hr).
  do 3 eexists. split; [reflexivity|]. split; [reflexivity|].
  rewrite getCanvasCoordinates_attached by assumption.
  split; [reflexivity|]. cbv zeta. simpl.
  set (z' := Math.min (Math.max 0.1 (zoom s + - WheelEvent.deltaY e / 1000)) 5).
  destruct (newZoom_range (zoom s + - WheelEvent.deltaY e / 1000))
    as [Hlo' _].
  fold z' in Hlo'.
  assert (Hz : ~ zoom s == 0) by lra.
  assert (Hz' : ~ z' == 0) by lra.
  repeat split; try reflexivity; field; auto.
Qed.

Lemma wheel_keeps_point_under_cursor_witness :
  exists s' before after,
    getCanvasCoordinates 200 150 mounted = Ok before /\
    handleWheel sampleWheel mounted = Ok s' /\
    getCanvasCoordinates 200 150 s' = Ok after /\
    x after == x before /\ y after == y before /\
    x (position s')
      == 200 - 0 - (200 - 0 - x (position mounted))
                    * (zoom s' / zoom mounted) /\
    y (position s')
      == 150 - 0 - (150 - 0 - y (position mounted))
                    * (zoom s' / zoom mounted).
Proof.
  apply (wheel_keeps_point_under_cursor sampleWheel mounted);
    try reflexivity; simpl; lra.
Defined.

(** ** C4: the coordinate transform inverts the render transform *)

(** C4.  For every state with both elements mounted and a zoom in
    [0.1, 5], every offset and every screen point, [getCanvasCoordinates]
    returns a point that the render transform (scale by the zoom, then
    translate by the offset, inside the container) sends back to the screen
    point. *)
Theorem getCanvasCoordinates_inverts_render (cx cy : number) (s : Editor) :
  containerRef s = attached -> canvasRef s = attached ->
  0.1 <= zoom s -> zoom s <= 5 ->
  exists p, getCanvasCoordinates cx cy s = Ok p /\
    x (imageToScreen p s) == cx /\ y (imageToScreen p s) == cy.
Proof.
  intros Hc Hr Hlo Hhi.
  rewrite (getCanvasCoordinates_attached cx cy s Hc Hr).
  eexists. split; [reflexivity|].
  assert (Hz : ~ zoom s == 0) by lra.
  unfold imageToScreen, renderTransform, translate, scale,
    getBoundingClientRect.
  simpl. split; field; exact Hz.
Qed.

Lemma getCanvasCoordinates_inverts_render_witness :
  exists p, getCanvasCoordinates 123 45 zoomedView = Ok p /\
    x (imageToScreen p zoomedView) == 123 /\
    y (imageToScreen p zoomedView) == 45.
Proof.
  apply (getCanvasCoordinates_inverts_render 123 45 zoomedView);
    try reflexivity; vm_compute; discriminate.
Defined.

(** ** C5: the zoom stays between 0.1 and 5 *)

(** C5.  For every wheel event and every prior zoom, the wheel handler of
    the mounted component sets the zoom to
    [clamp (zoom + (- deltaY / 1000)) 0.1 5]; and in every reachable state
    the zoom lies in [0.1, 5]. *)
Theorem wheel_clamps_zoom :
  (forall (e : WheelEvent.t) (s : Editor),
      containerRef s = attached ->
      exists s', handleWheel e s = Ok s' /\
        zoom s' == clamp (zoom s + - WheelEvent.deltaY e / 1000) 0.1 5 /\
        0.1 <= zoom s' /\ zoom s' <= 5)
  /\ (forall s : Editor, reachable s -> 0.1 <= zoom s /\ zoom s <= 5).
Proof.
  split.
  - intros e s Hc. rewrite (handleWheel_attached e s Hc).
    eexists. split; [reflexivity|]. simpl. split.
    + apply newZoom_clamp.
    + apply newZoom_range.
  - intros s Hs. apply reachable_Inv in Hs. apply Hs.
Qed.

Lemma wheel_clamps_zoom_witness :
  (exists s',
      handleWheel
        {| WheelEvent.deltaY := -1000000; WheelEvent.clientX := 0;
           WheelEvent.clientY := 0 |} mounted = Ok s' /\
      zoom s' == clamp (zoom mounted + - (-1000000) / 1000) 0.1 5 /\
      0.1 <= zoom s' /\ zoom s' <= 5)
  /\ (0.1 <= zoom drawing /\ zoom drawing <= 5).
Proof.
  split.
  - apply (proj1 wheel_clamps_zoom
             {| WheelEvent.deltaY := -1000000; WheelEvent.clientX := 0;
                WheelEvent.clientY := 0 |} mounted).
    reflexivity.
  - apply (proj2 wheel_clamps_zoom drawing). apply reachable_drawing.
Defined.

(** ** C6: panning only moves the offset *)

(** C6.  A pointer-move that reaches the handler while the pan tool is
    active and a drag is in progress adds the movement delta of the event to
    the offset and changes nothing else; in particular the zoom is
    unchanged, and the absolute position of the pointer plays no part. *)
Theorem pan_move_only_shifts_position (e : MouseEvent.t) (s : Editor) :
  activeTool s = pan -> isDragging s = true -> fromControl e = false ->
  exists s',
    handleMouseMove e s = Ok s' /\
    s' = setPosition
           {| x := x (position s) + MouseEvent.movementX e;
              y := y (position s) + MouseEvent.movementY e |} s /\
    zoom s' = zoom s.
Proof.
  intros Ht Hd Hf. unfold handleMouseMove. rewrite Hf, Ht, Hd. simpl.
  eexists. split; [reflexivity|]. split; reflexivity.
Qed.

Lemma pan_move_only_shifts_position_witness :
  exists s',
    handleMouseMove (mouseAt "CANVAS" 30 25 20 15) panning = Ok s' /\
    s' = setPosition
           {| x := x (position panning) + 20;
              y := y (position panning) + 15 |} panning /\
    zoom s' = zoom panning.
Proof.
  apply (pan_move_only_shifts_position (mouseAt "CANVAS" 30 25 20 15) panning);
    reflexivity.
Defined.

(** ** C7: reset *)

Lemma covers_whole c :
  Canvas.covers c 0 0 (inject_Z (Z.of_N (width c)))
    (inject_Z (Z.of_N (height c))) = true.
Proof.
  unfold Canvas.covers.
  repeat (apply andb_true_intro; split); apply Qle_bool_iff; lra.
Qed.

(** C7.  From every reachable state, the reset sets the zoom to 1 and the
    offset to (0, 0) and leaves the canvas blank. *)
Theorem resetView_restores_identity_and_blank (s : Editor) :
  reachable s ->
  exists s', resetView s = Ok s' /\
    zoom s' = 1 /\ position s' = {| x := 0; y := 0 |} /\
    bitmap (canvas s') = [].
Proof.
  intros Hs. destruct (reachable_Inv s Hs) as [_ _ _ Hr _ Hp].
  unfold resetView, viaCtx. simpl. rewrite Hr.
  destruct (ctx s) eqn:Hx; simpl.
  - eexists. split; [reflexivity|]. simpl. repeat split.
    destruct (bitmap (canvas s)) as [|op ops]; [reflexivity|].
    assert (null = attached) by (apply Hp; discriminate). discriminate.
  - eexists. split; [reflexivity|]. simpl. repeat split.
    unfold Canvas.clearRect. simpl. rewrite covers_whole. reflexivity.
Qed.

Lemma resetView_restores_identity_and_blank_witness :
  bitmap (canvas painted) <> [] /\
  exists s', resetView painted = Ok s' /\
    zoom s' = 1 /\ position s' = {| x := 0; y := 0 |} /\
    bitmap (canvas s') = [].
Proof.
  split.
  - vm_compute. discriminate.
  - apply (resetView_restores_identity_and_blank painted).
    apply reachable_painted.
Defined.

(** ** C8: the width of a stroke *)

(** C8.  In every reachable state where the draw tool is active and a draw
    gesture is in progress, a pointer-move that reaches the handler sets the
    line width to [brushSize / zoom] and paints the path with that width. *)
Theorem draw_move_strokes_with_scaled_brush (e : MouseEvent.t) (s : Editor) :
  reachable s ->
  activeTool s = draw -> isDrawing s = true -> fromControl e = false ->
  exists s' subpaths cap join style,
    handleMouseMove e s = Ok s' /\
    lineWidth (canvas s') = brushSize s / zoom s /\
    bitmap (canvas s') =
      bitmap (canvas s)
      ++ [Stroked subpaths (brushSize s / zoom s) cap join style].
Proof.
  intros Hs Ht Hd Hf.
  destruct (reachable_Inv s Hs) as [[Hlo Hhi] [Hb _] Hc Hr Hx _].
  specialize (Hx Hd).
  rewrite (handleMouseMove_draw e s Hf Ht Hd Hx).
  rewrite (getCanvasCoordinates_attached _ _ s Hc Hr). cbn [bind ret].
  assert (Hpos : 0 < brushSize s / zoom s).
  { apply Qlt_shift_div_l; lra. }
  do 5 eexists. split; [reflexivity|].
  cbn [canvas withCanvas Canvas.stroke Canvas.set_bitmap Canvas.set_lineWidth
       Canvas.lineTo Canvas.set_path lineWidth bitmap path lineCap lineJoin
       strokeStyle].
  destruct (Qlt_le_dec 0 (brushSize s / zoom s)) as [_ | Hneg]; [|lra].
  split; reflexivity.
Qed.

Lemma draw_move_strokes_with_scaled_brush_witness :
  exists s' subpaths cap join style,
    handleMouseMove (mouseAt "CANVAS" 20 100 0 80) drawing = Ok s' /\
    lineWidth (canvas s') = brushSize drawing / zoom drawing /\
    bitmap (canvas s') =
      bitmap (canvas drawing)
      ++ [Stroked subpaths (brushSize drawing / zoom drawing) cap join style].
Proof.
  apply (draw_move_strokes_with_scaled_brush
           (mouseAt "CANVAS" 20 100 0 80) drawing);
    [apply reachable_drawing | reflexivity | reflexivity | reflexivity].
Defined.

(** ** C9: the guards *)

(** C9.  When the reference to the canvas or to the container is null,
    [getCanvasCoordinates] returns the origin (0, 0) and does not throw;
    when no [onMaskChange] is registered, the release handler completes
    without a call and without throwing: it only lowers the two gesture
    flags. *)
Theorem guards_return_defaults :
  (forall (cx cy : number) (s : Editor),
      canvasRef s = null \/ containerRef s = null ->
      getCanvasCoordinates cx cy s = Ok {| x := 0; y := 0 |})
  /\ (forall s : Editor,
        onMaskChange s = undefined ->
        handleMouseUp s = Ok (setIsDrawing false (setIsDragging false s))).
Proof.
  split.
  - intros cx cy s [H | H]; unfold getCanvasCoordinates; rewrite H; simpl.
    + reflexivity.
    + destruct (canvasRef s); reflexivity.
  - intros s H. unfold handleMouseUp. rewrite H.
    destruct (canvasRef s); reflexivity.
Qed.

Lemma guards_return_defaults_witness :
  getCanvasCoordinates 200 150 unmounted = Ok {| x := 0; y := 0 |}
  /\ handleMouseUp drawingUnobserved
     = Ok (setIsDrawing false (setIsDragging false drawingUnobserved)).
Proof.
  split.
  - apply (proj1 guards_return_defaults 200 150 unmounted).
    left. reflexivity.
  - apply (proj2 guards_return_defaults drawingUnobserved). reflexivity.
Defined.

(** ** C10: the two gesture flags *)

Lemma flagsFollowTool_exclusive s :
  flagsFollowTool s -> isDragging s && isDrawing s = false.
Proof.
  intros [Hp Hd]. destruct (isDragging s), (isDrawing s); try reflexivity.
  specialize (Hp eq_refl). specialize (Hd eq_refl). congruence.
Qed.

Lemma handleMouseUp_idle s :
  exists s', handleMouseUp s = Ok s' /\
    isDragging s' = false /\ isDrawing s' = false.
Proof.
  unfold handleMouseUp, call_onMaskChange. cbn.
  destruct (canvasRef s), (onMaskChange s); cbn; eexists; repeat split.
Qed.

Lemma handleMouseDown_flags e s s' :
  flagsFollowTool s -> handleMouseDown e s = Ok s' -> flagsFollowTool s'.
Proof.
  intros [Hp Hd].
  destruct (negb (Z.eqb (MouseEvent.button e) 0) || fromControl e) eqn:He.
  - unfold handleMouseDown. rewrite He. intros H; ok_inv H. split; assumption.
  - destruct (activeTool s) eqn:Ht.
    + unfold handleMouseDown. rewrite He, Ht. cbn.
      intros H; ok_inv H. split; cbn; rewrite ?Ht; auto.
    + destruct (ctx s) eqn:Hx.
      * unfold handleMouseDown. rewrite He, Ht, Hx. cbn.
        intros H; ok_inv H. split; rewrite ?Ht; assumption.
      * rewrite (handleMouseDown_draw e s He Ht Hx).
        destruct (getCanvasCoordinates_total (MouseEvent.clientX e)
                    (MouseEvent.clientY e) s) as [p ->].
        cbn [bind ret]. intros H; ok_inv H. split; cbn; rewrite ?Ht; auto.
Qed.

Lemma handleMouseMove_flags e s s' :
  flagsFollowTool s -> handleMouseMove e s = Ok s' -> flagsFollowTool s'.
Proof.
  intros HF. unfold handleMouseMove.
  destruct (fromControl e); [intros H; ok_inv H; exact HF|].
  destruct (Tool_eqb (activeTool s) pan && isDragging s);
    [intros H; ok_inv H; exact HF|].
  destruct (Tool_eqb (activeTool s) draw && isDrawing s); cbn [andb];
    [|intros H; ok_inv H; exact HF].
  destruct (ctx s) eqn:Hx; cbn [truthy];
    [intros H; ok_inv H; exact HF|].
  destruct (getCanvasCoordinates_total (MouseEvent.clientX e)
              (MouseEvent.clientY e) s) as [p ->].
  cbn [bind]. rewrite viaCtx_attached by exact Hx. cbn [bind].
  rewrite viaCtx_attached by exact Hx. cbn [bind].
  rewrite viaCtx_attached by exact Hx.
  intros H; ok_inv H. exact HF.
Qed.

Lemma pointer_flags ev s s' :
  flagsFollowTool s -> dispatch (ofPointer ev) s = Ok s' -> flagsFollowTool s'.
Proof.
  intros HF. destruct ev as [e | e | | ]; cbn [ofPointer dispatch].
  - apply handleMouseDown_flags, HF.
  - apply handleMouseMove_flags, HF.
  - destruct (handleMouseUp_idle s) as (s1 & -> & Hg & Hw).
    intros H; ok_inv H. split; congruence.
  - destruct (handleMouseUp_idle s) as (s1 & -> & Hg & Hw).
    intros H; ok_inv H. split; congruence.
Qed.

Lemma run_pointer_flags evs : forall s,
  flagsFollowTool s ->
  exists s', run (map ofPointer evs) s = Ok s' /\ flagsFollowTool s'.
Proof.
  induction evs as [| ev evs IH]; intros s HF; cbn [map run].
  - exists s. split; [reflexivity | exact HF].
  - destruct (dispatch_total (ofPointer ev) s) as [s1 Hs1].
    rewrite Hs1. cbn [bind]. apply IH. eapply pointer_flags; eassumption.
Qed.

(** C10.  From every state with both gesture flags down, every sequence of
    pointer-down, pointer-move, pointer-up and pointer-leave events runs to
    a state where [isDragging] and [isDrawing] are not both up; and from
    every state a pointer-up or a pointer-leave lowers both flags. *)
Theorem gesture_flags_exclusive :
  (forall (s : Editor) (evs : list PointerEvent),
      isDragging s = false -> isDrawing s = false ->
      exists s', run (map ofPointer evs) s = Ok s' /\
        isDragging s' && isDrawing s' = false)
  /\ (forall (s : Editor) (ev : PointerEvent),
        ev = pointerUp \/ ev = pointerLeave ->
        exists s', dispatch (ofPointer ev) s = Ok s' /\
          isDragging s' = false /\ isDrawing s' = false).
Proof.
  split.
  - intros s evs Hg Hw.
    destruct (run_pointer_flags evs s) as (s' & Hrun & HF).
    { split; congruence. }
    exists s'. split; [exact Hrun | apply flagsFollowTool_exclusive, HF].
  - intros s ev [-> | ->]; cbn [ofPointer dispatch];
      destruct (handleMouseUp_idle s) as (s' & Hs' & Hg & Hw);
      exists s'; auto.
Qed.

Lemma gesture_flags_exclusive_witness :
  (exists s',
      run (map ofPointer
             [pointerDown (mouseAt "CANVAS" 10 10 0 0);
              pointerMove (mouseAt "CANVAS" 30 25 20 15);
              pointerDown (mouseAt "IMG" 30 25 0 0)]) mounted = Ok s' /\
      isDragging s' && isDrawing s' = false)
  /\ (exists s',
        dispatch (ofPointer pointerLeave) drawing = Ok s' /\
        isDragging s' = false /\ isDrawing s' = false).
Proof.
  split.
  - apply (proj1 gesture_flags_exclusive mounted); reflexivity.
  - apply (proj2 gesture_flags_exclusive drawing pointerLeave).
    right. reflexivity.
Defined.

(** * Further properties *)

(** ** Traces *)

Lemma run_app evs1 : forall evs2 s,
  run (evs1 ++ evs2) s = (s1 <- run evs1 s ;; run evs2 s1).
Proof.
  induction evs1 as [| ev evs1 IH]; intros evs2 s; cbn [app run].
  - reflexivity.
  - destruct (dispatch ev s) as [s1 | err]; cbn [bind]; [apply IH | reflexivity].
Qed.

Lemma run_cons ev evs s s1 :
  dispatch ev s = Ok s1 -> run (ev :: evs) s = run evs s1.
Proof. intros H. cbn [run]. rewrite H. reflexivity. Qed.

Lemma lastOf_app_single {A : Type} (l : list A) (a : A) :
  lastOf (l ++ [a]) = Some a.
Proof.
  induction l as [| b l IH]; [reflexivity|].
  cbn [app lastOf]. destruct (l ++ [a]) eqn:E.
  - destruct l; discriminate E.
  - exact IH.
Qed.

Lemma currentPoint_extend_last p subs :
  currentPoint (Canvas.extend_last p subs) = Some p.
Proof.
  unfold currentPoint.
  assert (H : exists sub, lastOf (Canvas.extend_last p subs) = Some (sub ++ [p])).
  { induction subs as [| sub subs IH].
    - exists []. reflexivity.
    - destruct subs as [| sub2 subs].
      + exists sub. reflexivity.
      + destruct IH as [sub' IH]. exists sub'.
        change (Canvas.extend_last p (sub :: sub2 :: subs))
          with (sub :: Canvas.extend_last p (sub2 :: subs)).
        cbn [lastOf]. destruct (Canvas.extend_last p (sub2 :: subs)) eqn:E.
        * discriminate IH.
        * exact IH. }
  destruct H as [sub ->]. apply lastOf_app_single.
Qed.

Lemma currentPoint_moveTo p subs :
  currentPoint (subs ++ [[p]]) = Some p.
Proof. unfold currentPoint. rewrite lastOf_app_single. reflexivity. Qed.

(** X1.  No handler throws: from every state, whatever references are
    null and whether or not a callback is registered, every trace of events
    runs to a state. *)
Theorem trace_never_throws (evs : list Event) (s : Editor) :
  exists s', run evs s = Ok s'.
Proof.
  revert s. induction evs as [| ev evs IH]; intros s.
  - exists s. reflexivity.
  - destruct (dispatch_total ev s) as [s1 Hs1].
    destruct (IH s1) as [s' Hs']. exists s'.
    rewrite (run_cons ev evs s s1 Hs1). exact Hs'.
Qed.

Lemma handleMouseUp_silent s :
  canvasRef s = null \/ onMaskChange s = undefined ->
  exists s', handleMouseUp s = Ok s' /\ maskChanges s' = maskChanges s.
Proof.
  intros H. unfold handleMouseUp, call_onMaskChange. cbn.
  destruct H as [H | H]; rewrite H.
  - cbn. eexists. split; reflexivity.
  - destruct (canvasRef s); cbn; eexists; split; reflexivity.
Qed.

(** X2.  Without a callback, or without a canvas, nothing is ever
    exported: no trace of events adds a call of [onMaskChange]. *)
Theorem no_export_without_callback (evs : list Event) (s : Editor) :
  canvasRef s = null \/ onMaskChange s = undefined ->
  exists s', run evs s = Ok s' /\ maskChanges s' = maskChanges s.
Proof.
  revert s. induction evs as [| ev evs IH]; intros s H.
  - exists s. split; reflexivity.
  - destruct (dispatch_total ev s) as [s1 Hs1].
    destruct (dispatch_frame ev s s1 Hs1) as (Hr1 & Hc1 & Hm1).
    destruct (IH s1) as (s' & Hrun & Hm').
    { rewrite Hr1, Hc1. exact H. }
    exists s'. rewrite (run_cons ev evs s s1 Hs1). split; [exact Hrun|].
    rewrite Hm'. destruct (isRelease ev) eqn:Hrel.
    + assert (Hup : handleMouseUp s = Ok s1)
        by (destruct ev; try discriminate Hrel; exact Hs1).
      destruct (handleMouseUp_silent s H) as (s2 & Hs2 & Hm2).
      rewrite Hs2 in Hup. ok_inv Hup. exact Hm2.
    + apply Hm1. reflexivity.
Qed.

Lemma no_export_without_callback_witness :
  exists s',
    run (strokeTrace ++ [onMouseUp]) unobserved = Ok s' /\
    maskChanges s' = maskChanges unobserved.
Proof.
  apply (no_export_without_callback (strokeTrace ++ [onMouseUp]) unobserved).
  right. reflexivity.
Defined.

Lemma run_frame evs : forall s s',
  run evs s = Ok s' ->
  canvasRef s' = canvasRef s /\ onMaskChange s' = onMaskChange s.
Proof.
  induction evs as [| ev evs IH]; intros s s'; cbn [run].
  - intros H. ok_inv H. split; reflexivity.
  - destruct (dispatch_total ev s) as [s1 Hs1]. rewrite Hs1. cbn [bind].
    intros H. destruct (IH s1 s' H) as [Hr Hc].
    destruct (dispatch_frame ev s s1 Hs1) as (Hr1 & Hc1 & _).
    split; congruence.
Qed.

Lemma handleMouseUp_exports s :
  canvasRef s = attached -> onMaskChange s = defined ->
  exists s', handleMouseUp s = Ok s' /\ canvas s' = canvas s /\
    maskChanges s' = maskChanges s ++ [toDataURL (canvas s)].
Proof.
  intros Hr Hc. unfold handleMouseUp, call_onMaskChange. cbn.
  rewrite Hr, Hc. cbn. eexists. repeat split.
Qed.

(** X3.  With a canvas and a callback, a pointer-up or pointer-leave after
    any trace hands the callback the canvas as it is at that moment, and
    leaves the canvas as it was. *)
Theorem release_exports_current_canvas
    (evs : list Event) (rel : Event) (s : Editor) :
  canvasRef s = attached -> onMaskChange s = defined ->
  isRelease rel = true ->
  exists s1 s',
    run evs s = Ok s1 /\ run (evs ++ [rel]) s = Ok s' /\
    canvas s' = canvas s1 /\
    maskChanges s' = maskChanges s1 ++ [toDataURL (canvas s')].
Proof.
  intros Hr Hc Hrel.
  destruct (run_total evs s) as [s1 Hs1].
  destruct (run_frame evs s s1 Hs1) as [Hr1 Hc1].
  rewrite Hr in Hr1. rewrite Hc in Hc1.
  destruct (handleMouseUp_exports s1 Hr1 Hc1) as (s' & Hs' & Hcv & Hm).
  exists s1, s'. split; [exact Hs1|]. rewrite run_app, Hs1. cbn [bind run].
  assert (Hd : dispatch rel s1 = Ok s')
    by (destruct rel; try discriminate Hrel; exact Hs').
  rewrite Hd. cbn [bind ret]. split; [reflexivity|].
  split; [exact Hcv|]. rewrite Hcv. exact Hm.
Qed.

Lemma release_exports_current_canvas_witness :
  exists s1 s',
    run strokeTrace mounted = Ok s1 /\
    run (strokeTrace ++ [onMouseLeave]) mounted = Ok s' /\
    canvas s' = canvas s1 /\
    maskChanges s' = maskChanges s1 ++ [toDataURL (canvas s')].
Proof.
  apply (release_exports_current_canvas strokeTrace onMouseLeave mounted);
    reflexivity.
Defined.

(** ** Pan and zoom *)

Lemma handleMouseMove_pan e s :
  activeTool s = pan -> isDragging s = true -> fromControl e = false ->
  handleMouseMove e s =
  Ok (setPosition
        {| x := x (position s) + MouseEvent.movementX e;
           y := y (position s) + MouseEvent.movementY e |} s).
Proof.
  intros Ht Hd Hf. unfold handleMouseMove. rewrite Hf, Ht, Hd. reflexivity.
Qed.

(** X4.  During a pan drag the moves add up: after any number of moves the
    offset is the starting offset plus the sum of the movement deltas, and
    the zoom and the canvas are untouched. *)
Theorem pan_moves_add_up (es : list MouseEvent.t) (s : Editor) :
  activeTool s = pan -> isDragging s = true ->
  Forall (fun e => fromControl e = false) es ->
  exists s',
    run (map onMouseMove es) s = Ok s' /\
    x (position s') == x (position s) + sumMovementX es /\
    y (position s') == y (position s) + sumMovementY es /\
    zoom s' = zoom s /\ canvas s' = canvas s /\ isDragging s' = true.
Proof.
  revert s. induction es as [| e es IH]; intros s Ht Hd Hes.
  - exists s. cbn. repeat split; try reflexivity; try lra; assumption.
  - inversion Hes as [| e' es' He Hes']; subst.
    pose proof (handleMouseMove_pan e s Ht Hd He) as Hstep.
    destruct (IH (setPosition
                    {| x := x (position s) + MouseEvent.movementX e;
                       y := y (position s) + MouseEvent.movementY e |} s))
      as (s' & Hrun & Hx & Hy & Hz & Hc & Hg); auto.
    exists s'. cbn [map].
    rewrite (run_cons (onMouseMove e) (map onMouseMove es) s _ Hstep).
    split; [exact Hrun|]. cbn in Hx, Hy, Hz, Hc.
    cbn [sumMovementX sumMovementY fold_right].
    repeat split; auto.
    + rewrite Hx. fold (sumMovementX es). lra.
    + rewrite Hy. fold (sumMovementY es). lra.
Qed.

Lemma pan_moves_add_up_witness :
  exists s',
    run (map onMouseMove panMoves) panning = Ok s' /\
    x (position s') == x (position panning) + sumMovementX panMoves /\
    y (position s') == y (position panning) + sumMovementY panMoves /\
    zoom s' = zoom panning /\ canvas s' = canvas panning /\
    isDragging s' = true.
Proof.
  apply (pan_moves_add_up panMoves panning);
    [reflexivity | reflexivity | repeat constructor].
Defined.

(** X5.  A pan move carries the image with the pointer: the image point
    that was under a screen point before the move is under that screen point
    displaced by the movement delta after it. *)
Theorem pan_carries_grabbed_point
    (cx cy : number) (e : MouseEvent.t) (s : Editor) :
  containerRef s = attached -> canvasRef s = attached ->
  0.1 <= zoom s -> zoom s <= 5 ->
  activeTool s = pan -> isDragging s = true -> fromControl e = false ->
  exists s' grabbed held,
    getCanvasCoordinates cx cy s = Ok grabbed /\
    handleMouseMove e s = Ok s' /\
    getCanvasCoordinates (cx + MouseEvent.movementX e)
      (cy + MouseEvent.movementY e) s' = Ok held /\
    x held == x grabbed /\ y held == y grabbed.
Proof.
  intros Hc Hr Hlo Hhi Ht Hd Hf.
  rewrite (handleMouseMove_pan e s Ht Hd Hf).
  rewrite (getCanvasCoordinates_attached cx cy s Hc Hr).
  do 3 eexists. split; [reflexivity|]. split; [reflexivity|].
  rewrite getCanvasCoordinates_attached by assumption.
  split; [reflexivity|]. cbn.
  assert (Hz : ~ zoom s == 0) by lra.
  split; field; exact Hz.
Qed.

Lemma pan_carries_grabbed_point_witness :
  exists s' grabbed held,
    getCanvasCoordinates 10 10 panning = Ok grabbed /\
    handleMouseMove (mouseAt "CANVAS" 30 25 20 15) panning = Ok s' /\
    getCanvasCoordinates (10 + 20) (10 + 15) s' = Ok held /\
    x held == x grabbed /\ y held == y grabbed.
Proof.
  apply (pan_carries_grabbed_point 10 10 (mouseAt "CANVAS" 30 25 20 15)
           panning);
    try reflexivity; vm_compute; discriminate.
Defined.

Lemma newZoom_inside (v : number) :
  0.1 <= v -> v <= 5 -> Math.min (Math.max 0.1 v) 5 == v.
Proof.
  intros Hlo Hhi. unfold Math.min, Math.max.
  rewrite Q.max_r by exact Hlo. rewrite Q.min_l by exact Hhi. reflexivity.
Qed.

Lemma newZoom_above (v : number) :
  5 <= v -> Math.min (Math.max 0.1 v) 5 == 5.
Proof.
  intros Hhi. unfold Math.min, Math.max.
  rewrite Q.max_r by lra. rewrite Q.min_r by exact Hhi. reflexivity.
Qed.

Lemma newZoom_below (v : number) :
  v <= 0.1 -> Math.min (Math.max 0.1 v) 5 == 0.1.
Proof.
  intros Hlo. unfold Math.min, Math.max.
  rewrite Q.max_l by exact Hlo. rewrite Q.min_l by lra. reflexivity.
Qed.

Lemma newZoom_monotone (v w : number) :
  v <= w -> Math.min (Math.max 0.1 v) 5 <= Math.min (Math.max 0.1 w) 5.
Proof.
  intros H. unfold Math.min, Math.max.
  apply Q.min_le_compat_r. apply Q.max_le_compat_l. exact H.
Qed.

(** X8.  The wheel zooms in the direction of the scroll: a non-positive
    [deltaY] never lowers the zoom and a non-negative one never raises it. *)
Theorem wheel_direction (e : WheelEvent.t) (s : Editor) :
  containerRef s = attached -> 0.1 <= zoom s -> zoom s <= 5 ->
  exists s', handleWheel e s = Ok s' /\
    (WheelEvent.deltaY e <= 0 -> zoom s <= zoom s') /\
    (0 <= WheelEvent.deltaY e -> zoom s' <= zoom s).
Proof.
  intros Hc Hlo Hhi. rewrite (handleWheel_attached e s Hc).
  eexists. split; [reflexivity|]. cbn.
  pose proof (newZoom_inside (zoom s) Hlo Hhi) as Hid.
  split; intros Hd.
  - rewrite <- Hid at 1. apply newZoom_monotone.
    assert (0 <= - WheelEvent.deltaY e / 1000).
    { apply Qle_shift_div_l; lra. }
    lra.
  - rewrite <- Hid at 2. apply newZoom_monotone.
    assert (- WheelEvent.deltaY e / 1000 <= 0).
    { apply Qle_shift_div_r; lra. }
    lra.
Qed.

Lemma wheel_direction_witness :
  exists s', handleWheel sampleWheel mounted = Ok s' /\
    (WheelEvent.deltaY sampleWheel <= 0 -> zoom mounted <= zoom s') /\
    (0 <= WheelEvent.deltaY sampleWheel -> zoom s' <= zoom mounted).
Proof.
  apply (wheel_direction sampleWheel mounted);
    try reflexivity; vm_compute; discriminate.
Defined.

(** X7.  At a bound of the zoom range a further wheel step in the same
    direction changes neither the zoom nor the offset. *)
Theorem wheel_saturates (e : WheelEvent.t) (s : Editor) :
  containerRef s = attached ->
  (zoom s == 5 /\ WheelEvent.deltaY e <= 0)
  \/ (zoom s == 0.1 /\ 0 <= WheelEvent.deltaY e) ->
  exists s', handleWheel e s = Ok s' /\
    zoom s' == zoom s /\
    x (position s') == x (position s) /\
    y (position s') == y (position s).
Proof.
  intros Hc H. rewrite (handleWheel_attached e s Hc).
  eexists. split; [reflexivity|]. cbn.
  set (z' := Math.min (Math.max 0.1 (zoom s + - WheelEvent.deltaY e / 1000)) 5).
  assert (Hz' : z' == zoom s).
  { unfold z'. destruct H as [[Hz Hd] | [Hz Hd]].
    - rewrite Hz at 2. apply newZoom_above.
      assert (0 <= - WheelEvent.deltaY e / 1000)
        by (apply Qle_shift_div_l; lra).
      lra.
    - rewrite Hz at 2. apply newZoom_below.
      assert (- WheelEvent.deltaY e / 1000 <= 0)
        by (apply Qle_shift_div_r; lra).
      lra. }
  assert (Hnz : ~ zoom s == 0) by (destruct H as [[Hz _] | [Hz _]]; lra).
  split; [exact Hz'|]. rewrite Hz'. split; field; exact Hnz.
Qed.

Lemma wheel_saturates_witness :
  exists s', handleWheel sampleWheel zoomedIn = Ok s' /\
    zoom s' == zoom zoomedIn /\
    x (position s') == x (position zoomedIn) /\
    y (position s') == y (position zoomedIn).
Proof.
  apply (wheel_saturates sampleWheel zoomedIn); [reflexivity|].
  left. split; [vm_compute; reflexivity | vm_compute; discriminate].
Defined.

(** X6.  A wheel step that stays inside the zoom range is undone by the
    opposite step at the same cursor: zoom and offset are back where they
    were. *)
Theorem wheel_round_trip (d cx cy : number) (s : Editor) :
  containerRef s = attached ->
  0.1 <= zoom s -> zoom s <= 5 ->
  0.1 <= zoom s + - d / 1000 -> zoom s + - d / 1000 <= 5 ->
  exists s1 s2,
    handleWheel {| WheelEvent.deltaY := d; WheelEvent.clientX := cx;
                   WheelEvent.clientY := cy |} s = Ok s1 /\
    handleWheel {| WheelEvent.deltaY := - d; WheelEvent.clientX := cx;
                   WheelEvent.clientY := cy |} s1 = Ok s2 /\
    zoom s2 == zoom s /\
    x (position s2) == x (position s) /\
    y (position s2) == y (position s).
Proof.
  intros Hc Hlo Hhi Hlo1 Hhi1.
  rewrite (handleWheel_attached _ s Hc).
  eexists. eexists. split; [reflexivity|].
  rewrite handleWheel_attached by exact Hc.
  split; [reflexivity|]. cbn.
  set (z1 := Math.min (Math.max 0.1 (zoom s + - d / 1000)) 5).
  assert (H1 : z1 == zoom s + - d / 1000)
    by (apply newZoom_inside; assumption).
  set (z2 := Math.min (Math.max 0.1 (z1 + - - d / 1000)) 5).
  assert (H2 : z2 == zoom s).
  { unfold z2. rewrite newZoom_inside.
    - rewrite H1. field.
    - rewrite H1. setoid_replace (zoom s + - d / 1000 + - - d / 1000) with (zoom s) by field. exact Hlo.
    - rewrite H1. setoid_replace (zoom s + - d / 1000 + - - d / 1000) with (zoom s) by field. exact Hhi. }
  assert (Hnz : ~ zoom s == 0) by lra.
  assert (Hnz1 : ~ z1 == 0) by lra.
  split; [exact H2|]. rewrite H2. split; field; auto.
Qed.

Lemma wheel_round_trip_witness :
  exists s1 s2,
    handleWheel {| WheelEvent.deltaY := -200; WheelEvent.clientX := 200;
                   WheelEvent.clientY := 150 |} mounted = Ok s1 /\
    handleWheel {| WheelEvent.deltaY := - -200; WheelEvent.clientX := 200;
                   WheelEvent.clientY := 150 |} s1 = Ok s2 /\
    zoom s2 == zoom mounted /\
    x (position s2) == x (position mounted) /\
    y (position s2) == y (position mounted).
Proof.
  apply (wheel_round_trip (-200) 200 150 mounted);
    try reflexivity; vm_compute; discriminate.
Defined.

(** ** Drawing *)

Lemma getCanvasCoordinates_coordsOf e s :
  getCanvasCoordinates (MouseEvent.clientX e) (MouseEvent.clientY e) s
  = Ok (coordsOf s e).
Proof.
  unfold coordsOf.
  destruct (getCanvasCoordinates_total (MouseEvent.clientX e)
              (MouseEvent.clientY e) s) as [p ->].
  reflexivity.
Qed.

Lemma leftPress_guard e :
  leftPress e = true ->
  negb (Z.eqb (MouseEvent.button e) 0) || fromControl e = false.
Proof.
  unfold leftPress. intros H. apply andb_prop in H as [Hb Hf].
  rewrite Hb. cbn. destruct (fromControl e); [discriminate Hf | reflexivity].
Qed.

Lemma draw_moves (es : list MouseEvent.t) : forall (t : Editor) q0 rest,
  activeTool t = draw -> isDrawing t = true -> ctx t = attached ->
  path (canvas t) = [q0 :: rest] ->
  Forall (fun e => fromControl e = false) es ->
  exists t' strokes,
    run (map onMouseMove es) t = Ok t' /\
    path (canvas t') = [(q0 :: rest) ++ map (coordsOf t) es] /\
    bitmap (canvas t') = bitmap (canvas t) ++ strokes /\
    List.length strokes = List.length es /\
    Forall (strokeFrom q0) strokes /\
    isDrawing t' = true.
Proof.
  induction es as [| e es IH]; intros t q0 rest Ht Hd Hx Hp Hes.
  - exists t, []. cbn. rewrite Hp, !app_nil_r. repeat split; auto.
  - inversion Hes as [| e' es' He Hes']; subst.
    pose proof (handleMouseMove_draw e t He Ht Hd Hx) as Hstep.
    rewrite getCanvasCoordinates_coordsOf in Hstep. cbn [bind ret] in Hstep.
    set (t1 := withCanvas Canvas.stroke
                 (withCanvas (Canvas.set_lineWidth (brushSize t / zoom t))
                    (withCanvas
                       (Canvas.lineTo (x (coordsOf t e)) (y (coordsOf t e))) t)))
      in Hstep.
    assert (Hp1 : path (canvas t1) = [q0 :: (rest ++ [coordsOf t e])]).
    { unfold t1. cbn. rewrite Hp. cbn. destruct (coordsOf t e). reflexivity. }
    destruct (IH t1 q0 (rest ++ [coordsOf t e]) Ht Hd Hx Hp1 Hes')
      as (t' & strokes & Hrun & Hpath & Hbits & Hlen & Hall & Hdr).
    exists t'. eexists. cbn [map].
    rewrite (run_cons (onMouseMove e) (map onMouseMove es) t t1 Hstep).
    split; [exact Hrun|]. split.
    { rewrite Hpath. change (coordsOf t1) with (coordsOf t).
      cbn [app map]. rewrite <- app_assoc. reflexivity. }
    split.
    { rewrite Hbits. unfold t1. cbn. rewrite <- app_assoc. reflexivity. }
    split; [cbn; rewrite Hlen; reflexivity|].
    split; [|exact Hdr].
    constructor; [|exact Hall].
    rewrite Hp. cbn. destruct (coordsOf t e) as [px py]. cbn.
    unfold strokeFrom. do 5 eexists. reflexivity.
Qed.

(** X9.  A draw gesture records the polyline of the pointer: a left press
    outside the controls starts a fresh path at the image point of the
    press, whatever path was there before, each move appends its image
    point, and each move paints one stroke that starts at the press point. *)
Theorem draw_gesture_records_polyline
    (e0 : MouseEvent.t) (es : list MouseEvent.t) (s : Editor) :
  activeTool s = draw -> ctx s = attached -> leftPress e0 = true ->
  Forall (fun e => fromControl e = false) es ->
  exists s' strokes,
    run (onMouseDown e0 :: map onMouseMove es) s = Ok s' /\
    path (canvas s') = [coordsOf s e0 :: map (coordsOf s) es] /\
    bitmap (canvas s') = bitmap (canvas s) ++ strokes /\
    List.length strokes = List.length es /\
    Forall (strokeFrom (coordsOf s e0)) strokes /\
    isDrawing s' = true.
Proof.
  intros Ht Hx He0 Hes.
  pose proof (handleMouseDown_draw e0 s (leftPress_guard e0 He0) Ht Hx) as Hdown.
  rewrite getCanvasCoordinates_coordsOf in Hdown. cbn [bind ret] in Hdown.
  set (t := withCanvas
              (Canvas.moveTo (x (coordsOf s e0)) (y (coordsOf s e0)))
              (withCanvas Canvas.beginPath (setIsDrawing true s))) in Hdown.
  assert (Hp : path (canvas t) = [coordsOf s e0 :: []]).
  { unfold t. cbn. destruct (coordsOf s e0). reflexivity. }
  destruct (draw_moves es t (coordsOf s e0) [] Ht eq_refl Hx Hp Hes)
    as (s' & strokes & Hrun & Hpath & Hbits & Hlen & Hall & Hdr).
  exists s', strokes.
  rewrite (run_cons (onMouseDown e0) (map onMouseMove es) s t Hdown).
  repeat split; auto.
Qed.

Lemma draw_gesture_records_polyline_witness :
  exists s' strokes,
    run (onMouseDown (mouseAt "CANVAS" 20 20 0 0)
           :: map onMouseMove drawMoves) drawTool = Ok s' /\
    path (canvas s')
    = [coordsOf drawTool (mouseAt "CANVAS" 20 20 0 0)
         :: map (coordsOf drawTool) drawMoves] /\
    bitmap (canvas s') = bitmap (canvas drawTool) ++ strokes /\
    List.length strokes = List.length drawMoves /\
    Forall (strokeFrom (coordsOf drawTool (mouseAt "CANVAS" 20 20 0 0)))
      strokes /\
    isDrawing s' = true.
Proof.
  apply (draw_gesture_records_polyline (mouseAt "CANVAS" 20 20 0 0)
           drawMoves drawTool);
    [reflexivity | reflexivity | reflexivity | repeat constructor].
Defined.

(** X10.  The point a move of a draw gesture adds to the path shows on
    screen, through the render transform, exactly at the pointer. *)
Theorem painted_point_shows_under_pointer (e : MouseEvent.t) (s : Editor) :
  containerRef s = attached -> canvasRef s = attached ->
  0.1 <= zoom s -> zoom s <= 5 ->
  activeTool s = draw -> isDrawing s = true -> ctx s = attached ->
  fromControl e = false ->
  exists s' p,
    handleMouseMove e s = Ok s' /\
    currentPoint (path (canvas s')) = Some p /\
    x (imageToScreen p s') == MouseEvent.clientX e /\
    y (imageToScreen p s') == MouseEvent.clientY e.
Proof.
  intros Hc Hr Hlo Hhi Ht Hd Hx Hf.
  rewrite (handleMouseMove_draw e s Hf Ht Hd Hx).
  rewrite (getCanvasCoordinates_attached _ _ s Hc Hr). cbn [bind ret].
  do 2 eexists. split; [reflexivity|]. split.
  { cbn. apply currentPoint_extend_last. }
  assert (Hz : ~ zoom s == 0) by lra.
  unfold imageToScreen, renderTransform, translate, scale,
    getBoundingClientRect.
  cbn. split; field; exact Hz.
Qed.

Lemma painted_point_shows_under_pointer_witness :
  exists s' p,
    handleMouseMove (mouseAt "CANVAS" 20 100 0 80) drawing = Ok s' /\
    currentPoint (path (canvas s')) = Some p /\
    x (imageToScreen p s') == 20 /\ y (imageToScreen p s') == 100.
Proof.
  apply (painted_point_shows_under_pointer
           (mouseAt "CANVAS" 20 100 0 80) drawing);
    try reflexivity; vm_compute; discriminate.
Defined.

Lemma dispatch_view ev s s' :
  activeTool s = pan -> viewEvent ev = true -> dispatch ev s = Ok s' ->
  canvas s' = canvas s /\ activeTool s' = pan.
Proof.
  intros Ht Hv.
  destruct ev as [e | e | e | | | | | | value | target | ];
    try discriminate Hv; cbn [dispatch].
  - unfold handleWheel. destruct (containerRef s); cbn;
      intros H; ok_inv H; auto.
  - unfold handleMouseDown. rewrite Ht. cbn [Tool_eqb].
    destruct (negb (Z.eqb (MouseEvent.button e) 0) || fromControl e);
      intros H; ok_inv H; auto.
  - unfold handleMouseMove. rewrite Ht. cbn [Tool_eqb andb].
    destruct (fromControl e); [intros H; ok_inv H; auto|].
    destruct (isDragging s); intros H; ok_inv H; auto.
  - unfold handleMouseUp, call_onMaskChange. cbn.
    destruct (canvasRef s), (onMaskChange s); cbn; intros H; ok_inv H; auto.
  - unfold handleMouseUp, call_onMaskChange. cbn.
    destruct (canvasRef s), (onMaskChange s); cbn; intros H; ok_inv H; auto.
  - intros H; ok_inv H; auto.
  - intros H; ok_inv H; auto.
Qed.

(** X11.  While the pan tool is active, no trace of wheel events, pointer
    events, pan-button clicks and brush changes touches the canvas. *)
Theorem pan_tool_never_touches_canvas (evs : list Event) (s : Editor) :
  activeTool s = pan -> forallb viewEvent evs = true ->
  exists s', run evs s = Ok s' /\ canvas s' = canvas s /\ activeTool s' = pan.
Proof.
  revert s. induction evs as [| ev evs IH]; intros s Ht Hall.
  - exists s. repeat split; auto.
  - cbn [forallb] in Hall. apply andb_prop in Hall as [Hev Hall].
    destruct (dispatch_total ev s) as [s1 Hs1].
    destruct (dispatch_view ev s s1 Ht Hev Hs1) as [Hc1 Ht1].
    destruct (IH s1 Ht1 Hall) as (s' & Hrun & Hc & Ht').
    exists s'. rewrite (run_cons ev evs s s1 Hs1).
    repeat split; auto. congruence.
Qed.

Lemma pan_tool_never_touches_canvas_witness :
  exists s',
    run viewTrace mounted = Ok s' /\
    canvas s' = canvas mounted /\ activeTool s' = pan.
Proof.
  apply (pan_tool_never_touches_canvas viewTrace mounted); reflexivity.
Defined.

(** ** The canvas over time *)

Lemma dispatch_inert ev s s' :
  inert s -> dispatch ev s = Ok s' -> inert s'.
Proof.
  intros (Hx & Hb & Hd).
  destruct ev as [e | e | e | | | | | | value | target | ]; cbn [dispatch].
  - unfold handleWheel. destruct (containerRef s); cbn;
      intros H; ok_inv H; repeat split; auto.
  - unfold handleMouseDown. rewrite Hx. cbn [truthy negb].
    destruct (negb (Z.eqb (MouseEvent.button e) 0) || fromControl e);
      [intros H; ok_inv H; repeat split; auto|].
    destruct (activeTool s); cbn [Tool_eqb];
      intros H; ok_inv H; repeat split; auto.
  - unfold handleMouseMove. rewrite Hx, Hd.
    destruct (fromControl e); [intros H; ok_inv H; repeat split; auto|].
    destruct (Tool_eqb (activeTool s) pan && isDragging s);
      [intros H; ok_inv H; repeat split; auto|].
    rewrite andb_false_r. cbn [andb].
    intros H; ok_inv H; repeat split; auto.
  - unfold handleMouseUp, call_onMaskChange. cbn.
    destruct (canvasRef s), (onMaskChange s); cbn;
      intros H; ok_inv H; repeat split; auto.
  - unfold handleMouseUp, call_onMaskChange. cbn.
    destruct (canvasRef s), (onMaskChange s); cbn;
      intros H; ok_inv H; repeat split; auto.
  - intros H; ok_inv H; repeat split; auto.
  - intros H; ok_inv H; repeat split; auto.
  - unfold resetView. cbn. rewrite Hx. cbn.
    intros H; ok_inv H; repeat split; auto.
  - intros H; ok_inv H; repeat split; auto.
  - destruct target; cbn [onLoadProp].
    + intros H; ok_inv H; repeat split; auto.
    + unfold canvasOnLoad. destruct (canvasRef s); cbn;
        intros H; ok_inv H; repeat split; auto.
  - intros H; ok_inv H. unfold rerender.
    destruct (sameAttr (canvasWidthProp s) (fst (canvasAttrs s)));
    destruct (sameAttr (canvasHeightProp s) (snd (canvasAttrs s)));
      repeat split; auto.
Qed.

(** X12.  When [getContext] gave no context at mount, no trace of events
    ever starts a draw gesture or paints: the canvas stays blank. *)
Theorem no_context_no_paint
    (callback : Callback) (div : HTMLDivElement) (evs : list Event) :
  exists s',
    run evs (mount callback div null) = Ok s' /\
    ctx s' = null /\ bitmap (canvas s') = [] /\ isDrawing s' = false.
Proof.
  assert (Hgen : forall evs s, inert s ->
            exists s', run evs s = Ok s' /\ inert s').
  { clear evs. induction evs as [| ev evs IH]; intros s Hs.
    - exists s. split; [reflexivity | exact Hs].
    - destruct (dispatch_total ev s) as [s1 Hs1].
      destruct (IH s1 (dispatch_inert ev s s1 Hs Hs1)) as (s' & Hrun & Hs').
      exists s'. rewrite (run_cons ev evs s s1 Hs1). auto. }
  destruct (Hgen evs (mount callback div null)) as (s' & Hrun & Hs').
  { repeat split. }
  exists s'. split; [exact Hrun | exact Hs'].
Qed.

Lemma dispatch_keepsPaint ev s s' :
  keepsPaint ev = true -> dispatch ev s = Ok s' ->
  exists ops, bitmap (canvas s') = bitmap (canvas s) ++ ops /\
    forallb isStroke ops = true.
Proof.
  intros Hk.
  destruct ev as [e | e | e | | | | | | value | target | ];
    try discriminate Hk; cbn [dispatch].
  - unfold handleWheel. destruct (containerRef s); cbn;
      intros H; ok_inv H; exists []; rewrite app_nil_r; auto.
  - destruct (negb (Z.eqb (MouseEvent.button e) 0) || fromControl e) eqn:He.
    + unfold handleMouseDown. rewrite He. intros H; ok_inv H.
      exists []; rewrite app_nil_r; auto.
    + destruct (activeTool s) eqn:Ht.
      * unfold handleMouseDown. rewrite He, Ht. cbn.
        intros H; ok_inv H. exists []; rewrite app_nil_r; auto.
      * destruct (ctx s) eqn:Hx.
        -- unfold handleMouseDown. rewrite He, Ht, Hx. cbn.
           intros H; ok_inv H. exists []; rewrite app_nil_r; auto.
        -- rewrite (handleMouseDown_draw e s He Ht Hx).
           rewrite getCanvasCoordinates_coordsOf. cbn [bind ret].
           intros H; ok_inv H. exists []; rewrite app_nil_r; auto.
  - destruct (fromControl e) eqn:Hf.
    { unfold handleMouseMove. rewrite Hf. intros H; ok_inv H.
      exists []; rewrite app_nil_r; auto. }
    destruct (Tool_eqb (activeTool s) pan && isDragging s) eqn:Hpan.
    { unfold handleMouseMove. rewrite Hf, Hpan. intros H; ok_inv H.
      exists []; rewrite app_nil_r; auto. }
    destruct (Tool_eqb (activeTool s) draw && isDrawing s && truthy (ctx s))
      eqn:Hdraw.
    + apply andb_prop in Hdraw as [Hdraw Hx].
      apply andb_prop in Hdraw as [Ht Hd].
      assert (Ht' : activeTool s = draw) by (destruct (activeTool s); [discriminate Ht | reflexivity]).
      assert (Hx' : ctx s = attached) by (destruct (ctx s); [discriminate Hx | reflexivity]).
      rewrite (handleMouseMove_draw e s Hf Ht' Hd Hx').
      rewrite getCanvasCoordinates_coordsOf. cbn [bind ret].
      intros H; ok_inv H. eexists. split; [reflexivity|]. reflexivity.
    + unfold handleMouseMove. rewrite Hf, Hpan, Hdraw. intros H; ok_inv H.
      exists []; rewrite app_nil_r; auto.
  - unfold handleMouseUp, call_onMaskChange. cbn.
    destruct (canvasRef s), (onMaskChange s); cbn;
      intros H; ok_inv H; exists []; rewrite app_nil_r; auto.
  - unfold handleMouseUp, call_onMaskChange. cbn.
    destruct (canvasRef s), (onMaskChange s); cbn;
      intros H; ok_inv H; exists []; rewrite app_nil_r; auto.
  - intros H; ok_inv H. exists []; rewrite app_nil_r; auto.
  - intros H; ok_inv H. exists []; rewrite app_nil_r; auto.
  - intros H; ok_inv H. exists []; rewrite app_nil_r; auto.
Qed.

(** X13.  Paint accumulates: a trace without reset, [load] and re-render
    only ever appends strokes to what is painted. *)
Theorem paint_accumulates (evs : list Event) (s : Editor) :
  forallb keepsPaint evs = true ->
  exists s' ops,
    run evs s = Ok s' /\
    bitmap (canvas s') = bitmap (canvas s) ++ ops /\
    forallb isStroke ops = true.
Proof.
  revert s. induction evs as [| ev evs IH]; intros s Hall.
  - exists s, []. rewrite app_nil_r. repeat split.
  - cbn [forallb] in Hall. apply andb_prop in Hall as [Hev Hall].
    destruct (dispatch_total ev s) as [s1 Hs1].
    destruct (dispatch_keepsPaint ev s s1 Hev Hs1) as (ops1 & Hb1 & Ho1).
    destruct (IH s1 Hall) as (s' & ops & Hrun & Hb & Ho).
    exists s', (ops1 ++ ops). rewrite (run_cons ev evs s s1 Hs1).
    split; [exact Hrun|]. split.
    + rewrite Hb, Hb1, app_assoc. reflexivity.
    + rewrite forallb_app, Ho1, Ho. reflexivity.
Qed.

Lemma paint_accumulates_witness :
  exists s' ops,
    run (onWheel sampleWheel :: onMouseMove (mouseAt "CANVAS" 60 100 40 0)
           :: [onMouseUp; clickPan]) midStroke = Ok s' /\
    bitmap (canvas s') = bitmap (canvas midStroke) ++ ops /\
    forallb isStroke ops = true.
Proof.
  apply (paint_accumulates
           (onWheel sampleWheel :: onMouseMove (mouseAt "CANVAS" 60 100 40 0)
              :: [onMouseUp; clickPan]) midStroke).
  reflexivity.
Defined.



Lemma defaultContext_blank w h : defaultContext (Canvas.blank w h).
Proof. repeat split. constructor. Qed.

Lemma viaCtx_keeps_default f s s' :
  (forall c, defaultContext c -> defaultContext (f c)) ->
  styleInv s -> viaCtx f s = Ok s' -> styleInv s'.
Proof.
  intros Hf Hs. unfold viaCtx. destruct (ctx s); cbn; [discriminate|].
  intros H; ok_inv H. intros Ha. apply Hf, Hs, Ha.
Qed.

Lemma stroke_default c : defaultContext c -> defaultContext (Canvas.stroke c).
Proof.
  intros (Hs & Hc & Hj & Hb). repeat split; auto. cbn.
  apply Forall_app. split; [exact Hb|]. constructor; [|constructor].
  rewrite Hs, Hc, Hj. unfold defaultStyled. eauto.
Qed.

Lemma set_path_default p c :
  defaultContext c -> defaultContext (Canvas.set_path p c).
Proof. intros (Hs & Hc & Hj & Hb). repeat split; auto. Qed.

Lemma set_lineWidth_default w c :
  defaultContext c -> defaultContext (Canvas.set_lineWidth w c).
Proof. intros (Hs & Hc & Hj & Hb). repeat split; auto. Qed.

Lemma clearRect_default rx ry rw rh c :
  Canvas.covers c rx ry rw rh = true ->
  defaultContext c -> defaultContext (Canvas.clearRect rx ry rw rh c).
Proof.
  intros Hcov (Hs & Hc & Hj & Hb). repeat split; auto.
  unfold Canvas.clearRect. cbn. rewrite Hcov. constructor.
Qed.

Lemma dispatch_styleInv ev s s' :
  styleInv s -> dispatch ev s = Ok s' -> styleInv s'.
Proof.
  intros Hs.
  destruct ev as [e | e | e | | | | | | value | target | ]; cbn [dispatch].
  - unfold handleWheel. destruct (containerRef s); cbn;
      intros H; ok_inv H; exact Hs.
  - destruct (negb (Z.eqb (MouseEvent.button e) 0) || fromControl e) eqn:He.
    + unfold handleMouseDown. rewrite He. intros H; ok_inv H. exact Hs.
    + destruct (activeTool s) eqn:Ht.
      * unfold handleMouseDown. rewrite He, Ht. cbn.
        intros H; ok_inv H. exact Hs.
      * destruct (ctx s) eqn:Hx.
        -- unfold handleMouseDown. rewrite He, Ht, Hx. cbn.
           intros H; ok_inv H. exact Hs.
        -- rewrite (handleMouseDown_draw e s He Ht Hx).
           rewrite getCanvasCoordinates_coordsOf. cbn [bind ret].
           intros H; ok_inv H. intros Ha.
           apply set_path_default, set_path_default, Hs, Ha.
  - destruct (fromControl e) eqn:Hf.
    { unfold handleMouseMove. rewrite Hf. intros H; ok_inv H. exact Hs. }
    destruct (Tool_eqb (activeTool s) pan && isDragging s) eqn:Hpan.
    { unfold handleMouseMove. rewrite Hf, Hpan. intros H; ok_inv H.
      exact Hs. }
    destruct (Tool_eqb (activeTool s) draw && isDrawing s && truthy (ctx s))
      eqn:Hdraw.
    + apply andb_prop in Hdraw as [Hdraw Hx].
      apply andb_prop in Hdraw as [Ht Hd].
      assert (Ht' : activeTool s = draw)
        by (destruct (activeTool s); [discriminate Ht | reflexivity]).
      assert (Hx' : ctx s = attached)
        by (destruct (ctx s); [discriminate Hx | reflexivity]).
      rewrite (handleMouseMove_draw e s Hf Ht' Hd Hx').
      rewrite getCanvasCoordinates_coordsOf. cbn [bind ret].
      intros H; ok_inv H. intros Ha.
      apply stroke_default, set_lineWidth_default, set_path_default, Hs, Ha.
    + unfold handleMouseMove. rewrite Hf, Hpan, Hdraw. intros H; ok_inv H.
      exact Hs.
  - unfold handleMouseUp, call_onMaskChange. cbn.
    destruct (canvasRef s), (onMaskChange s); cbn;
      intros H; ok_inv H; exact Hs.
  - unfold handleMouseUp, call_onMaskChange. cbn.
    destruct (canvasRef s), (onMaskChange s); cbn;
      intros H; ok_inv H; exact Hs.
  - intros H; ok_inv H. exact Hs.
  - intros H; ok_inv H. exact Hs.
  - unfold resetView, viaCtx. cbn.
    destruct (ctx s), (canvasRef s); cbn; intros H; ok_inv H;
      try exact Hs.
    intros Ha. apply clearRect_default; [apply covers_whole | apply Hs, Ha].
  - intros H; ok_inv H. exact Hs.
  - destruct target; cbn [onLoadProp].
    + intros H; ok_inv H. exact Hs.
    + unfold canvasOnLoad. destruct (canvasRef s); cbn;
        intros H; ok_inv H; [exact Hs|].
      intros _. apply defaultContext_blank.
  - intros H; ok_inv H. unfold styleInv, rerender.
    destruct (sameAttr (canvasWidthProp s) (fst (canvasAttrs s))) eqn:Hw;
    destruct (sameAttr (canvasHeightProp s) (snd (canvasAttrs s))) eqn:Hh;
      cbn; intros Ha; try apply defaultContext_blank.
    apply Hs. destruct (canvasWidthProp s), (fst (canvasAttrs s));
      try discriminate Hw; [discriminate | now elim Ha].
Qed.

Lemma reachable_styleInv s : reachable s -> styleInv s.
Proof.
  induction 1 as [callback div context | s s' ev _ IH _ Hd].
  - intros Ha. unfold mount, mountEffect in Ha. cbn in Ha.
    destruct context; cbn in Ha; now elim Ha.
  - eapply dispatch_styleInv; eassumption.
Qed.

(** X15.  Writing the size attributes resets the context: in every
    reachable state where they have been written, the stroke style, line
    cap and line join are the defaults of a canvas, not the values the mount
    effect set, and every stroke of the mask was painted with the
    defaults. *)
Theorem first_render_resets_stroke_style (s : Editor) :
  reachable s -> fst (canvasAttrs s) <> None ->
  strokeStyle (canvas s) = "#000000"%string /\
  lineCap (canvas s) = "butt"%string /\
  lineJoin (canvas s) = "miter"%string /\
  Forall defaultStyled (bitmap (canvas s)).
Proof.
  intros Hs Ha. exact (reachable_styleInv s Hs Ha).
Qed.

Lemma first_render_resets_stroke_style_witness :
  List.length (bitmap (canvas painted)) = 1%nat /\
  strokeStyle (canvas painted) = "#000000"%string /\
  lineCap (canvas painted) = "butt"%string /\
  lineJoin (canvas painted) = "miter"%string /\
  Forall defaultStyled (bitmap (canvas painted)).
Proof.
  split; [reflexivity|].
  apply (first_render_resets_stroke_style painted).
  - apply reachable_painted.
  - vm_compute. discriminate.
Defined.

(** X16.  Switching to the draw tool while a pan drag is in progress does
    not end the drag: a left press that follows raises the draw flag as
    well, so both flags are up. *)
Theorem tool_switch_mid_drag_raises_both_flags
    (e : MouseEvent.t) (s : Editor) :
  isDragging s = true -> ctx s = attached -> leftPress e = true ->
  exists s',
    run [clickDraw; onMouseDown e] s = Ok s' /\
    isDragging s' = true /\ isDrawing s' = true.
Proof.
  intros Hg Hx He.
  assert (Hstep : dispatch clickDraw s = Ok (setActiveTool draw s))
    by reflexivity.
  rewrite (run_cons clickDraw [onMouseDown e] s _ Hstep).
  pose proof (handleMouseDown_draw e (setActiveTool draw s)
                (leftPress_guard e He) eq_refl Hx) as Hdown.
  rewrite getCanvasCoordinates_coordsOf in Hdown. cbn [bind ret] in Hdown.
  eexists. rewrite (run_cons (onMouseDown e) [] _ _ Hdown).
  split; [reflexivity|]. cbn. auto.
Qed.

Lemma tool_switch_mid_drag_raises_both_flags_witness :
  exists s',
    run [clickDraw; onMouseDown (mouseAt "CANVAS" 40 40 0 0)] panning = Ok s' /\
    isDragging s' = true /\ isDrawing s' = true.
Proof.
  apply (tool_switch_mid_drag_raises_both_flags
           (mouseAt "CANVAS" 40 40 0 0) panning); reflexivity.
Defined.

Lemma point_eta (p : Point) : {| x := x p; y := y p |} = p.
Proof. destruct p. reflexivity. Qed.

(** X17.  A reset during a draw gesture blanks the canvas but ends
    neither the gesture nor its path: the next move paints the whole path
    since the press again, as the only stroke. *)
Theorem reset_mid_stroke_repaints_path (e : MouseEvent.t) (s : Editor) :
  activeTool s = draw -> isDrawing s = true ->
  ctx s = attached -> canvasRef s = attached ->
  fromControl e = false ->
  exists s1 s' w cap join style,
    resetView s = Ok s1 /\
    bitmap (canvas s1) = [] /\ isDrawing s1 = true /\
    path (canvas s1) = path (canvas s) /\
    handleMouseMove e s1 = Ok s' /\
    bitmap (canvas s')
    = [Stroked (Canvas.extend_last (coordsOf s1 e) (path (canvas s)))
         w cap join style].
Proof.
  intros Ht Hd Hx Hr Hf.
  assert (Hreset : resetView s
    = Ok (withCanvas
            (Canvas.clearRect 0 0 (inject_Z (Z.of_N (width (canvas s))))
               (inject_Z (Z.of_N (height (canvas s)))))
            (setPosition {| x := 0; y := 0 |} (setZoom 1 s)))).
  { unfold resetView, viaCtx. cbn. rewrite Hx, Hr. reflexivity. }
  rewrite Hreset.
  set (s1 := withCanvas _ _).
  assert (Hb1 : bitmap (canvas s1) = []).
  { unfold s1. cbn. rewrite covers_whole. reflexivity. }
  pose proof (handleMouseMove_draw e s1 Hf Ht Hd Hx) as Hmove.
  rewrite getCanvasCoordinates_coordsOf in Hmove. cbn [bind ret] in Hmove.
  exists s1. eexists. do 4 eexists.
  split; [reflexivity|]. split; [exact Hb1|]. split; [exact Hd|].
  split; [reflexivity|]. split; [exact Hmove|].
  cbn [canvas withCanvas Canvas.stroke Canvas.set_bitmap Canvas.set_lineWidth
       Canvas.lineTo Canvas.set_path bitmap path].
  fold s1. rewrite Hb1, point_eta. reflexivity.
Qed.

Lemma reset_mid_stroke_repaints_path_witness :
  exists s1 s' w cap join style,
    resetView midStroke = Ok s1 /\
    bitmap (canvas s1) = [] /\ isDrawing s1 = true /\
    path (canvas s1) = path (canvas midStroke) /\
    handleMouseMove (mouseAt "CANVAS" 60 100 40 0) s1 = Ok s' /\
    bitmap (canvas s')
    = [Stroked
         (Canvas.extend_last (coordsOf s1 (mouseAt "CANVAS" 60 100 40 0))
            (path (canvas midStroke)))
         w cap join style].
Proof.
  apply (reset_mid_stroke_repaints_path
           (mouseAt "CANVAS" 60 100 40 0) midStroke); reflexivity.
Defined.
(** ** The application shell *)

Lemma App_dispatch_image ev a :
  App.truthy (App.image a) = true \/ App.image a = None ->
  App.truthy (App.image (App.dispatch ev a)) = true
  \/ (App.image (App.dispatch ev a) = None /\ App.image a = None).
Proof.
  intros Ha. destruct ev as [files | k result]; cbn [App.dispatch].
  - unfold App.handleImageUpload.
    destruct files as [[| f fs] |]; cbn; destruct Ha; auto.
  - destruct (nth_error (App.reading a) k); [|destruct Ha; auto].
    unfold App.readerOnload. destruct (App.truthy result) eqn:Ht; cbn.
    + left. exact Ht.
    + destruct Ha; auto.
Qed.

Lemma App_run_shown evs : forall a,
  App.truthy (App.image a) = true ->
  App.truthy (App.image (App.run evs a)) = true.
Proof.
  induction evs as [| ev evs IH]; intros a Ha.
  - exact Ha.
  - unfold App.run in *. cbn [fold_left]. apply IH.
    destruct (App_dispatch_image ev a (or_introl Ha)) as [H | [_ H]];
      [exact H|].
    rewrite H in Ha. discriminate Ha.
Qed.

Lemma App_run_noFile evs : forall a,
  forallb App.noFile evs = true -> App.reading a = [] ->
  App.run evs a = a.
Proof.
  induction evs as [| ev evs IH]; intros a Hall Hr.
  - reflexivity.
  - cbn [forallb] in Hall. apply andb_prop in Hall as [Hev Hall].
    unfold App.run in *. cbn [fold_left].
    assert (Hd : App.dispatch ev a = a).
    { destruct ev as [files | k result]; cbn [App.dispatch].
      - destruct files as [[| f fs] |]; try discriminate Hev; reflexivity.
      - rewrite Hr. destruct k; reflexivity. }
    rewrite Hd. apply IH; assumption.
Qed.

(** X18.  The shell shows the editor only with a non-empty image and
    always without an [onMaskChange]; once it shows the editor it never
    goes back to the prompt; and while no change of the input carries a
    file it keeps showing the prompt. *)
Theorem app_shows_editor_only_with_an_image :
  (forall evs img cb,
      App.render (App.run evs App.init) = App.EditorView img cb ->
      App.image (App.run evs App.init) = Some img
      /\ img <> ""%string /\ cb = undefined)
  /\ (forall evs more img cb,
        App.render (App.run evs App.init) = App.EditorView img cb ->
        App.render (App.run (evs ++ more) App.init) <> App.UploadPrompt)
  /\ (forall evs,
        forallb App.noFile evs = true ->
        App.render (App.run evs App.init) = App.UploadPrompt).
Proof.
  split; [|split].
  - intros evs img cb. unfold App.render.
    destruct (App.truthy (App.image (App.run evs App.init))) eqn:Ht;
      cbn [negb]; [|discriminate].
    destruct (App.image (App.run evs App.init)) as [i |]; [|discriminate].
    intros H. injection H as <- <-. repeat split.
    intros ->. discriminate Ht.
  - intros evs more img cb. unfold App.render at 1.
    destruct (App.truthy (App.image (App.run evs App.init))) eqn:Ht;
      cbn [negb]; [|discriminate].
    intros _. unfold App.run. rewrite fold_left_app.
    fold (App.run evs App.init).
    pose proof (App_run_shown more (App.run evs App.init) Ht) as Hm.
    unfold App.run in Hm at 1. unfold App.render. rewrite Hm. cbn [negb].
    revert Hm. destruct (App.image (fold_left _ more _)) as [i |].
    + intros _ H. discriminate H.
    + intros Hm. discriminate Hm.
  - intros evs Hall. rewrite (App_run_noFile evs App.init Hall eq_refl).
    reflexivity.
Qed.

Lemma app_shows_editor_only_with_an_image_witness :
  (App.image (App.run uploadTrace App.init)
   = Some "data:image/png;base64,iVBORw0KGgo="%string
   /\ "data:image/png;base64,iVBORw0KGgo="%string <> ""%string
   /\ undefined = undefined)
  /\ App.render
       (App.run [App.onChange None; App.onload 0 (Some "late"%string)]
          App.init)
     = App.UploadPrompt.
Proof.
  split.
  - apply (proj1 app_shows_editor_only_with_an_image uploadTrace).
    reflexivity.
  - apply (proj2 (proj2 app_shows_editor_only_with_an_image)).
    reflexivity.
Defined.
